(** * scalable-chat: the message distribution and persistence pipeline

  A shallow embedding of the server of the chat application:

  - [apps/server/src/services/kafka.ts]: the memoised Kafka producer and
    consumer, [produceMessage] and [startMessageConsumer] with its
    [eachMessage] callback (store write, pause and timed resume);
  - the [SocketService] class (Socket.IO + Redis): the handler of the
    client event ["event:message"] and the Redis subscription callback.

  JavaScript strings are sequences of UTF-16 code units, asynchronous
  functions are programs of a small free monad over the calls they make
  to the outside (console, Redis, Kafka, Prisma, Socket.IO, timers), and
  the outside is a [World] that answers those calls. *)

From Stdlib Require Import List Bool Arith ZArith NArith Lia String Ascii.
Import ListNotations.

Set Implicit Arguments.
Set Warnings "-register-all".

(* ================================================================= *)
(** ** JavaScript strings *)

Module JS.

(** A JavaScript string: its UTF-16 code units. *)
Definition jsstring := list N.

Definition wf_unit (c : N) : Prop := (c < 65536)%N.
Definition wf_string (s : jsstring) : Prop := Forall wf_unit s.

(** String literals of the source. *)
Fixpoint js (s : string) : jsstring :=
  match s with
  | EmptyString => []
  | String a r => N_of_ascii a :: js r
  end.

Fixpoint str_eqb (a b : jsstring) : bool :=
  match a, b with
  | [], [] => true
  | x :: a', y :: b' => (x =? y)%N && str_eqb a' b'
  | _, _ => false
  end.

Fixpoint uint_digits (u : Decimal.uint) : jsstring :=
  match u with
  | Decimal.Nil => []
  | Decimal.D0 r => 48%N :: uint_digits r
  | Decimal.D1 r => 49%N :: uint_digits r
  | Decimal.D2 r => 50%N :: uint_digits r
  | Decimal.D3 r => 51%N :: uint_digits r
  | Decimal.D4 r => 52%N :: uint_digits r
  | Decimal.D5 r => 53%N :: uint_digits r
  | Decimal.D6 r => 54%N :: uint_digits r
  | Decimal.D7 r => 55%N :: uint_digits r
  | Decimal.D8 r => 56%N :: uint_digits r
  | Decimal.D9 r => 57%N :: uint_digits r
  end.

(** [`${n}`] for an integral number [n] (below 1e21 in magnitude, which
    covers every [Date.now()] and every Kafka offset): its decimal
    digits, with a leading minus sign when negative. *)
Definition number_to_string (n : Z) : jsstring :=
  match Z.to_int n with
  | Decimal.Pos u => uint_digits u
  | Decimal.Neg u => 45%N :: uint_digits u
  end.

End JS.
Import JS.

(* ================================================================= *)
(** ** JSON.stringify and JSON.parse *)

Module JSON.

(** Values that [JSON.parse] yields.  A number keeps its lexeme. *)
Inductive value : Type :=
| JNull
| JBool (b : bool)
| JNumber (lexeme : jsstring)
| JString (s : jsstring)
| JArray (items : list value)
| JObject (fields : list (jsstring * value)).

(** Property assignment [o[k] = v]: replaces in place, else appends. *)
Fixpoint obj_set (o : list (jsstring * value)) (k : jsstring) (v : value)
  : list (jsstring * value) :=
  match o with
  | [] => [(k, v)]
  | (k', v') :: r =>
      if str_eqb k' k then (k', v) :: r else (k', v') :: obj_set r k v
  end.

(** Property read [o.k]; [None] is [undefined]. *)
Fixpoint obj_get (o : list (jsstring * value)) (k : jsstring) : option value :=
  match o with
  | [] => None
  | (k', v') :: r => if str_eqb k' k then Some v' else obj_get r k
  end.

Definition get (v : value) (k : jsstring) : option value :=
  match v with
  | JObject o => obj_get o k
  | _ => None
  end.

(** *** Serialisation (QuoteJSONString and SerializeJSONProperty) *)

Definition hex_digit (d : N) : N :=
  if (d <? 10)%N then (48 + d)%N else (87 + d)%N.

Definition unicode_escape (c : N) : jsstring :=
  [92; 117; hex_digit (c / 4096); hex_digit ((c / 256) mod 16);
   hex_digit ((c / 16) mod 16); hex_digit (c mod 16)]%N.

Definition is_high (c : N) : bool := ((55296 <=? c) && (c <=? 56319))%N.
Definition is_low (c : N) : bool := ((56320 <=? c) && (c <=? 57343))%N.

(** The two-character escapes: backspace, tab, line feed, form feed,
    carriage return, double quote, backslash. *)
Definition short_escape (c : N) : option N :=
  if (c =? 8)%N then Some 98%N
  else if (c =? 9)%N then Some 116%N
  else if (c =? 10)%N then Some 110%N
  else if (c =? 12)%N then Some 102%N
  else if (c =? 13)%N then Some 114%N
  else if (c =? 34)%N then Some 34%N
  else if (c =? 92)%N then Some 92%N
  else None.

(** A code point that is one code unit (so not a surrogate pair). *)
Definition quote_unit (c : N) : jsstring :=
  match short_escape c with
  | Some e => [92%N; e]
  | None =>
      if (c <? 32)%N || is_high c || is_low c then unicode_escape c
      else [c]
  end.

Fixpoint quote_chars (s : jsstring) : jsstring :=
  match s with
  | [] => []
  | c :: r =>
      match r with
      | d :: r' =>
          if is_high c && is_low d then c :: d :: quote_chars r'
          else quote_unit c ++ quote_chars r
      | [] => quote_unit c
      end
  end.

Definition quote (s : jsstring) : jsstring :=
  34%N :: quote_chars s ++ [34%N].

(** Well-formed UTF-16: every surrogate is half of a pair.  Such a text
    is encoded to UTF-8 and decoded back without loss. *)
Fixpoint well_formed (s : jsstring) : bool :=
  match s with
  | [] => true
  | c :: r =>
      if is_high c then
        match r with
        | d :: r' => is_low d && well_formed r'
        | [] => false
        end
      else negb (is_low c) && well_formed r
  end.

Fixpoint stringify (v : value) : jsstring :=
  match v with
  | JNull => js "null"
  | JBool true => js "true"
  | JBool false => js "false"
  | JNumber l => l
  | JString s => quote s
  | JArray l =>
      91%N ::
      (fix items (l : list value) : jsstring :=
         match l with
         | [] => []
         | x :: r =>
             stringify x ++
             match r with [] => [] | _ :: _ => 44%N :: items r end
         end) l ++ [93%N]
  | JObject l =>
      123%N ::
      (fix fields (l : list (jsstring * value)) : jsstring :=
         match l with
         | [] => []
         | (k, x) :: r =>
             quote k ++ 58%N :: stringify x ++
             match r with [] => [] | _ :: _ => 44%N :: fields r end
         end) l ++ [125%N]
  end.

(** *** Parsing *)

Definition is_ws (c : N) : bool :=
  ((c =? 32) || (c =? 9) || (c =? 10) || (c =? 13))%N.

Fixpoint skip_ws (s : jsstring) : jsstring :=
  match s with
  | c :: r => if is_ws c then skip_ws r else s
  | [] => []
  end.

Definition hex_value (c : N) : option N :=
  if ((48 <=? c) && (c <=? 57))%N then Some (c - 48)%N
  else if ((97 <=? c) && (c <=? 102))%N then Some (c - 87)%N
  else if ((65 <=? c) && (c <=? 70))%N then Some (c - 55)%N
  else None.

Definition hex4 (h1 h2 h3 h4 : N) : option N :=
  match hex_value h1, hex_value h2, hex_value h3, hex_value h4 with
  | Some a, Some b, Some c, Some d =>
      Some (a * 4096 + b * 256 + c * 16 + d)%N
  | _, _, _, _ => None
  end.

Definition unescape (e : N) : option N :=
  if (e =? 34)%N then Some 34%N
  else if (e =? 92)%N then Some 92%N
  else if (e =? 47)%N then Some 47%N
  else if (e =? 98)%N then Some 8%N
  else if (e =? 102)%N then Some 12%N
  else if (e =? 110)%N then Some 10%N
  else if (e =? 114)%N then Some 13%N
  else if (e =? 116)%N then Some 9%N
  else None.

(** The characters of a string literal, after its opening quote, up to
    and including the closing one. *)
Fixpoint parse_chars (s acc : jsstring) : option (jsstring * jsstring) :=
  match s with
  | [] => None
  | c :: r =>
      if (c =? 34)%N then Some (rev acc, r)
      else if (c =? 92)%N then
        match r with
        | [] => None
        | e :: r1 =>
            if (e =? 117)%N then
              match r1 with
              | h1 :: h2 :: h3 :: h4 :: r2 =>
                  match hex4 h1 h2 h3 h4 with
                  | Some u => parse_chars r2 (u :: acc)
                  | None => None
                  end
              | _ => None
              end
            else
              match unescape e with
              | Some u => parse_chars r1 (u :: acc)
              | None => None
              end
        end
      else if (c <? 32)%N then None
      else parse_chars r (c :: acc)
  end.

Definition is_digit (c : N) : bool := ((48 <=? c) && (c <=? 57))%N.

Fixpoint span_digits (s : jsstring) : jsstring * jsstring :=
  match s with
  | c :: r =>
      if is_digit c then let (d, t) := span_digits r in (c :: d, t)
      else ([], s)
  | [] => ([], [])
  end.

(** One or more digits. *)
Definition digits1 (s : jsstring) : option (jsstring * jsstring) :=
  match span_digits s with
  | ([], _) => None
  | (d, t) => Some (d, t)
  end.

Definition parse_int_part (s : jsstring) : option (jsstring * jsstring) :=
  match s with
  | c :: r =>
      if (c =? 48)%N then Some ([c], r)
      else if is_digit c then let (d, t) := span_digits r in Some (c :: d, t)
      else None
  | [] => None
  end.

Definition parse_frac (s : jsstring) : option (jsstring * jsstring) :=
  match s with
  | c :: r =>
      if (c =? 46)%N then
        match digits1 r with
        | Some (d, t) => Some (c :: d, t)
        | None => None
        end
      else Some ([], s)
  | [] => Some ([], [])
  end.

Definition parse_exp (s : jsstring) : option (jsstring * jsstring) :=
  match s with
  | c :: r =>
      if ((c =? 101) || (c =? 69))%N then
        match r with
        | g :: r' =>
            if ((g =? 43) || (g =? 45))%N then
              match digits1 r' with
              | Some (d, t) => Some (c :: g :: d, t)
              | None => None
              end
            else
              match digits1 r with
              | Some (d, t) => Some (c :: d, t)
              | None => None
              end
        | [] => None
        end
      else Some ([], s)
  | [] => Some ([], [])
  end.

Definition parse_number (s : jsstring) : option (jsstring * jsstring) :=
  let (sign, s0) :=
    match s with
    | c :: r => if (c =? 45)%N then ([c], r) else ([], s)
    | [] => ([], [])
    end in
  match parse_int_part s0 with
  | Some (i, s1) =>
      match parse_frac s1 with
      | Some (f, s2) =>
          match parse_exp s2 with
          | Some (e, s3) => Some (sign ++ i ++ f ++ e, s3)
          | None => None
          end
      | None => None
      end
  | None => None
  end.

Fixpoint strip_prefix (p s : jsstring) : option jsstring :=
  match p with
  | [] => Some s
  | x :: p' =>
      match s with
      | y :: s' => if (x =? y)%N then strip_prefix p' s' else None
      | [] => None
      end
  end.

Definition parse_literal (s : jsstring) : option (value * jsstring) :=
  match strip_prefix (js "true") s with
  | Some r => Some (JBool true, r)
  | None =>
      match strip_prefix (js "false") s with
      | Some r => Some (JBool false, r)
      | None =>
          match strip_prefix (js "null") s with
          | Some r => Some (JNull, r)
          | None =>
              match parse_number s with
              | Some (l, r) => Some (JNumber l, r)
              | None => None
              end
          end
      end
  end.

(** Recursive descent; [fuel] bounds the nesting of calls. *)
Fixpoint parse_value (fuel : nat) (s : jsstring) : option (value * jsstring) :=
  match fuel with
  | O => None
  | S f =>
      match skip_ws s with
      | [] => None
      | c :: r =>
          if (c =? 34)%N then
            match parse_chars r [] with
            | Some (str, r') => Some (JString str, r')
            | None => None
            end
          else if (c =? 91)%N then
            match skip_ws r with
            | d :: r' =>
                if (d =? 93)%N then Some (JArray [], r')
                else parse_elements f r []
            | [] => None
            end
          else if (c =? 123)%N then
            match skip_ws r with
            | d :: r' =>
                if (d =? 125)%N then Some (JObject [], r')
                else parse_members f r []
            | [] => None
            end
          else parse_literal (c :: r)
      end
  end

with parse_elements (fuel : nat) (s : jsstring) (acc : list value)
  : option (value * jsstring) :=
  match fuel with
  | O => None
  | S f =>
      match parse_value f s with
      | Some (v, r) =>
          match skip_ws r with
          | c :: r' =>
              if (c =? 44)%N then parse_elements f r' (v :: acc)
              else if (c =? 93)%N then Some (JArray (rev (v :: acc)), r')
              else None
          | [] => None
          end
      | None => None
      end
  end

with parse_members (fuel : nat) (s : jsstring) (acc : list (jsstring * value))
  : option (value * jsstring) :=
  match fuel with
  | O => None
  | S f =>
      match skip_ws s with
      | c :: r =>
          if (c =? 34)%N then
            match parse_chars r [] with
            | Some (k, r1) =>
                match skip_ws r1 with
                | c1 :: r2 =>
                    if (c1 =? 58)%N then
                      match parse_value f r2 with
                      | Some (v, r3) =>
                          match skip_ws r3 with
                          | c3 :: r4 =>
                              if (c3 =? 44)%N
                              then parse_members f r4 (obj_set acc k v)
                              else if (c3 =? 125)%N
                              then Some (JObject (obj_set acc k v), r4)
                              else None
                          | [] => None
                          end
                      | None => None
                      end
                    else None
                | [] => None
                end
            | None => None
            end
          else None
      | [] => None
      end
  end.

(** [JSON.parse(text)]: [None] is the thrown [SyntaxError].  Every call
    of the descent consumes a character within two steps, so twice the
    length of the text is fuel enough. *)
Definition parse (text : jsstring) : option value :=
  match parse_value (2 * List.length text + 2) text with
  | Some (v, r) =>
      match skip_ws r with
      | [] => Some v
      | _ :: _ => None
      end
  | None => None
  end.

End JSON.

Import JSON.

(* ================================================================= *)
(** ** Calls to the outside and asynchronous programs *)

Inductive Error : Type :=
| SyntaxError   (* thrown by JSON.parse *)
| RedisError    (* a rejected ioredis command *)
| KafkaError    (* a rejected kafkajs call *)
| PrismaError.  (* a rejected prismaClient.message.create *)

(** How a promise settles. *)
Inductive Outcome (A : Type) : Type :=
| Resolved (a : A)
| Rejected (e : Error).
Arguments Rejected {A} e.

(** kafkajs producers and consumers, by identity. *)
Definition Handle := nat.
Definition SocketId := nat.

(** A Node [Buffer] is observed by the code only through its being an
    object and through [toString()]; it is represented by the text that
    [toString()] yields (the empty text for the empty buffer). *)
Record Buffer : Type := mkBuffer { toString : jsstring }.

(** [KafkaMessage]: [value] is [Buffer | null]. *)
Record KafkaMessage : Type := mkKafkaMessage {
  offset : nat;
  value : option Buffer
}.

(** The argument of [eachMessage]. *)
Record EachMessagePayload : Type := mkPayload {
  topic : jsstring;
  partition : Z;
  message : KafkaMessage
}.

(** [{ topic, partitions? }], the argument of pause and resume. *)
Record TopicPartitions : Type := mkTopicPartitions {
  tp_topic : jsstring;
  tp_partitions : option (list Z)
}.

(** [{ key, value }] and [{ topic, messages }], the argument of send. *)
Record ProducerMessage : Type := mkProducerMessage {
  pm_key : jsstring;
  pm_value : jsstring
}.

Record ProducerRecord : Type := mkProducerRecord {
  pr_messages : list ProducerMessage;
  pr_topic : jsstring
}.

(** Arguments of console.log and console.error. *)
Inductive LogArg : Type :=
| LStr (s : jsstring)
| LNum (n : Z)
| LUndefined
| LErr (e : Error)
| LObj (fields : list (jsstring * LogArg)).

Inductive Level : Type := Log | Err.

(** The closures that the socket service registers, by name. *)
Inductive Listener : Type :=
| OnConnection       (* io.on("connection", ...) *)
| OnEventMessage     (* socket.on("event:message", ...) *)
| OnRedisMessage.    (* sub.on("message", ...) *)

(** The closure given to [setTimeout] in [eachMessage]; it captures the
    local [consumer] of [startMessageConsumer]. *)
Inductive Callback : Type :=
| ResumeCallback (c : Handle).

(** The calls that the code makes to the outside. *)
Inductive Event : Type :=
| Console (l : Level) (args : list LogArg)
| DateNow                                   (* Date.now() *)
| ReadProducer                              (* the module variable producer *)
| WriteProducer (p : Handle)                (* producer = p *)
| ReadConsumer                              (* the module variable consumer *)
| WriteConsumer (c : Handle)                (* consumer = c *)
| KafkaProducer                             (* kafka.producer() *)
| ProducerConnect (p : Handle)              (* p.connect() *)
| ProducerSend (p : Handle) (r : ProducerRecord)   (* p.send(r) *)
| KafkaConsumer (groupId : jsstring)        (* kafka.consumer({ groupId }) *)
| ConsumerConnect (c : Handle)              (* c.connect() *)
| ConsumerSubscribe (c : Handle) (t : jsstring) (fromBeginning : bool)
| ConsumerRun (c : Handle)                  (* c.run({ eachMessage }) *)
| ConsumerPause (c : Handle) (tps : list TopicPartitions)
| ConsumerResume (c : Handle) (tps : list TopicPartitions)
| SetTimeout (cb : Callback) (ms : Z)
| PrismaMessageCreate (text : jsstring)     (* prismaClient.message.create *)
| RedisPublish (channel payload : jsstring) (* pub.publish *)
| RedisSubscribe (channel : jsstring)       (* sub.subscribe *)
| SubOn (event : jsstring) (l : Listener)   (* sub.on *)
| IoOn (event : jsstring) (l : Listener)    (* io.on *)
| SocketOn (s : SocketId) (event : jsstring) (l : Listener)   (* socket.on *)
| IoEmit (event : jsstring) (data : JSON.value).              (* io.emit *)

(** What each call gives back; a promise gives its outcome. *)
Definition Resp (ev : Event) : Type :=
  match ev with
  | DateNow => Z
  | ReadProducer | ReadConsumer => option Handle
  | KafkaProducer | KafkaConsumer _ => Handle
  | ProducerConnect _ | ProducerSend _ _ | ConsumerConnect _
  | ConsumerSubscribe _ _ _ | ConsumerRun _ | PrismaMessageCreate _
  | RedisPublish _ _ | RedisSubscribe _ => Outcome unit
  | _ => unit
  end.

(** A program: returns, throws, or makes a call and goes on with the
    answer. *)
Inductive Prog (A : Type) : Type :=
| Ret (a : A)
| Throw (e : Error)
| Do (ev : Event) (k : Resp ev -> Prog A).
Arguments Throw {A} e.

Fixpoint bind {A B : Type} (p : Prog A) (f : A -> Prog B) : Prog B :=
  match p with
  | Ret a => f a
  | Throw e => Throw e
  | Do ev k => Do ev (fun r => bind (k r) f)
  end.

Notation "x <- p ;; q" := (bind p (fun x => q))
  (at level 61, p at next level, right associativity).
Notation "p ;; q" := (bind p (fun _ => q))
  (at level 61, right associativity).

Definition call (ev : Event) : Prog (Resp ev) := Do ev (fun r => Ret r).

(** [await p]: the value of a resolved promise, the error of a rejected
    one, thrown. *)
Definition await {A : Type} (p : Prog (Outcome A)) : Prog A :=
  o <- p ;;
  match o with
  | Resolved a => Ret a
  | Rejected e => Throw e
  end.

(** [try { p } catch (error) { h error }]. *)
Fixpoint try_catch {A : Type} (p : Prog A) (h : Error -> Prog A) : Prog A :=
  match p with
  | Ret a => Ret a
  | Throw e => h e
  | Do ev k => Do ev (fun r => try_catch (k r) h)
  end.

Definition console_log (args : list LogArg) : Prog unit := call (Console Log args).
Definition console_error (args : list LogArg) : Prog unit := call (Console Err args).

(* ================================================================= *)
(** ** services/kafka.ts *)

Definition MESSAGES : jsstring := js "MESSAGES".

(** [createProducer]: the module variable [producer] is returned when
    set; else a producer is made, connected, stored and returned. *)
Definition createProducer : Prog Handle :=
  producer <- call ReadProducer ;;
  match producer with
  | Some p => Ret p
  | None =>
      _producer <- call KafkaProducer ;;
      await (call (ProducerConnect _producer)) ;;
      call (WriteProducer _producer) ;;
      Ret _producer
  end.

Definition produceMessage (message : jsstring) : Prog bool :=
  producer <- createProducer ;;
  now <- call DateNow ;;
  await (call (ProducerSend producer
    {| pr_messages :=
         [ {| pm_key := js "message-" ++ number_to_string now;
              pm_value := message |} ];
       pr_topic := MESSAGES |})) ;;
  Ret true.

Definition createConsumer (groupId : jsstring) : Prog Handle :=
  consumer <- call ReadConsumer ;;
  match consumer with
  | Some c => Ret c
  | None =>
      _consumer <- call (KafkaConsumer groupId) ;;
      await (call (ConsumerConnect _consumer)) ;;
      call (WriteConsumer _consumer) ;;
      Ret _consumer
  end.

(** The [eachMessage] callback given to [consumer.run]. *)
Definition eachMessage (consumer : Handle) (p : EachMessagePayload) : Prog unit :=
  console_log
    [ LStr (js "Kafka message received:");
      LObj [ (js "partition", LNum (partition p));
             (js "offset", LStr (number_to_string (Z.of_nat (offset (message p)))));
             (js "value",
               match value (message p) with
               | Some b => LStr (toString b)
               | None => LUndefined
               end) ] ] ;;
  match value (message p) with
  | Some b =>
      let messageText := toString b in
      try_catch
        (await (call (PrismaMessageCreate messageText)) ;;
         console_log [LStr (js "Message saved to database:"); LStr messageText])
        (fun error =>
           console_error [LStr (js "Error saving message to database:"); LErr error] ;;
           console_log [LStr (js "Pausing consumer for 1 minute...")] ;;
           call (ConsumerPause consumer
                   [ {| tp_topic := MESSAGES; tp_partitions := None |} ]) ;;
           call (SetTimeout (ResumeCallback consumer) 60000))
  | None => Ret tt
  end.

(** The callback of [setTimeout] in [eachMessage]. *)
Definition resume_callback (consumer : Handle) : Prog unit :=
  console_log [LStr (js "Resuming consumer...")] ;;
  call (ConsumerResume consumer
          [ {| tp_topic := MESSAGES; tp_partitions := None |} ]).

Definition startMessageConsumer : Prog unit :=
  console_log [LStr (js "Starting Kafka Consumer...")] ;;
  consumer <- createConsumer (js "message-consumer-group") ;;
  await (call (ConsumerSubscribe consumer MESSAGES true)) ;;
  await (call (ConsumerRun consumer)).

(* ================================================================= *)
(** ** The SocketService class *)

(** [constructor]: the Socket.IO server is made and the [sub] connection
    subscribes to the channel.  The promise is not awaited: its outcome
    is dropped here, so what becomes of a rejected subscription is not
    modelled. *)
Definition SocketService_constructor : Prog unit :=
  console_log [LStr (js "Init Socket Service...")] ;;
  call (RedisSubscribe MESSAGES) ;;
  Ret tt.

(** The handler of ["event:message"]. *)
Definition on_event_message (message : jsstring) : Prog unit :=
  console_log [LStr (js "New Message Received:"); LStr message] ;;
  await (call (RedisPublish MESSAGES
                 (stringify (JObject [(js "message", JString message)])))).

(** The handler of ["connection"]. *)
Definition on_connection (socket : SocketId) : Prog unit :=
  console_log [LStr (js "New Socket Connected"); LNum (Z.of_nat socket)] ;;
  call (SocketOn socket (js "event:message") OnEventMessage).

(** The handler of ["message"] on the [sub] connection. *)
Definition on_redis_message (channel message : jsstring) : Prog unit :=
  if str_eqb channel MESSAGES then
    console_log [LStr (js "New message from Redis:"); LStr message] ;;
    match JSON.parse message with
    | Some data => call (IoEmit (js "message") data)
    | None => Throw SyntaxError
    end
  else Ret tt.

Definition initListeners : Prog unit :=
  console_log [LStr (js "Init Socket Listeners...")] ;;
  call (IoOn (js "connection") OnConnection) ;;
  call (SubOn (js "message") OnRedisMessage).

(** [init] of index.ts: the first use of [SocketService.io] constructs
    the instance; the HTTP server is left out. *)
Definition init : Prog unit :=
  SocketService_constructor ;;
  initListeners ;;
  try_catch
    (startMessageConsumer ;;
     console_log [LStr (js "Kafka consumer started successfully")])
    (fun error =>
       console_error [LStr (js "Failed to start Kafka consumer:"); LErr error]).

(* ================================================================= *)
(** ** The outside: one server process and the services it talks to *)

(** The pause state kafkajs keeps for one topic of a consumer. *)
Record PauseMark : Type := mkPauseMark {
  pm_all : bool;
  pm_parts : list Z
}.

(** A kafkajs consumer object. *)
Record ConsumerObj : Type := mkConsumerObj {
  c_groupId : jsstring;
  c_subscribed : list (jsstring * bool);
  c_running : bool;
  c_paused : list (jsstring * PauseMark)
}.

(** A record of the log, as the broker keeps it. *)
Record BrokerRecord : Type := mkBrokerRecord {
  br_topic : jsstring;
  br_partition : Z;
  br_key : jsstring;
  br_value : option Buffer
}.

(** Which services answer, and how the producer's partitioner maps keys. *)
Record Env : Type := mkEnv {
  redis_up : bool;
  kafka_up : bool;
  partitioner : jsstring -> Z
}.

Record Clock : Type := mkClock {
  now : Z;
  timers : list (Z * Callback)
}.

(** The module variables of kafka.ts and the client objects made so far. *)
Record KafkaModule : Type := mkKafkaModule {
  producer : option Handle;
  consumer : option Handle;
  producers : nat;
  consumers : list ConsumerObj
}.

(** The broker: the log and the committed offset of each
    (group, topic, partition). *)
Record Broker : Type := mkBroker {
  log : list BrokerRecord;
  cursor : list (jsstring * jsstring * Z * nat)
}.

(** The database behind Prisma: [store_script] gives the outcomes of the
    next writes ([false] fails); once used up, writes succeed. *)
Record Store : Type := mkStore {
  store_script : list bool;
  rows : list jsstring;
  store_failures : nat
}.

Inductive Source : Type :=
| SrcIo
| SrcSub
| SrcSocket (s : SocketId).

(** Redis as seen from this process, and the Socket.IO server. *)
Record Realtime : Type := mkRealtime {
  published : list (jsstring * jsstring);
  subscribed : list jsstring;
  sockets : list SocketId;
  received : list (SocketId * jsstring * JSON.value);
  listeners : list (Source * jsstring * Listener)
}.

Record World : Type := mkWorld {
  env : Env;
  clock : Clock;
  kafka : KafkaModule;
  broker : Broker;
  store : Store;
  realtime : Realtime;
  unhandled : list Error
}.

Definition with_clock (c : Clock) (w : World) : World :=
  mkWorld (env w) c (kafka w) (broker w) (store w) (realtime w) (unhandled w).
Definition with_kafka (k : KafkaModule) (w : World) : World :=
  mkWorld (env w) (clock w) k (broker w) (store w) (realtime w) (unhandled w).
Definition with_broker (b : Broker) (w : World) : World :=
  mkWorld (env w) (clock w) (kafka w) b (store w) (realtime w) (unhandled w).
Definition with_store (s : Store) (w : World) : World :=
  mkWorld (env w) (clock w) (kafka w) (broker w) s (realtime w) (unhandled w).
Definition with_realtime (r : Realtime) (w : World) : World :=
  mkWorld (env w) (clock w) (kafka w) (broker w) (store w) r (unhandled w).
Definition with_unhandled (u : list Error) (w : World) : World :=
  mkWorld (env w) (clock w) (kafka w) (broker w) (store w) (realtime w) u.

(** *** kafkajs: pause and resume *)

Fixpoint mark_of (t : jsstring) (ps : list (jsstring * PauseMark)) : option PauseMark :=
  match ps with
  | [] => None
  | (t', m) :: r => if str_eqb t' t then Some m else mark_of t r
  end.

Fixpoint set_mark (t : jsstring) (m : PauseMark) (ps : list (jsstring * PauseMark))
  : list (jsstring * PauseMark) :=
  match ps with
  | [] => [(t, m)]
  | (t', m') :: r =>
      if str_eqb t' t then (t', m) :: r else (t', m') :: set_mark t m r
  end.

Definition mem_Z (p : Z) (l : list Z) : bool := existsb (Z.eqb p) l.

(** Without [partitions] the whole topic is marked; with them, they are
    added to the marked ones. *)
Definition pause_one (tp : TopicPartitions) (ps : list (jsstring * PauseMark))
  : list (jsstring * PauseMark) :=
  let old := match mark_of (tp_topic tp) ps with
             | Some m => m
             | None => mkPauseMark false []
             end in
  match tp_partitions tp with
  | None => set_mark (tp_topic tp) (mkPauseMark true []) ps
  | Some l => set_mark (tp_topic tp) (mkPauseMark false (pm_parts old ++ l)) ps
  end.

Definition resume_one (tp : TopicPartitions) (ps : list (jsstring * PauseMark))
  : list (jsstring * PauseMark) :=
  match mark_of (tp_topic tp) ps with
  | None => ps
  | Some old =>
      match tp_partitions tp with
      | None => set_mark (tp_topic tp) (mkPauseMark false []) ps
      | Some l =>
          if pm_all old then ps
          else set_mark (tp_topic tp)
                 (mkPauseMark false
                    (filter (fun p => negb (mem_Z p l)) (pm_parts old))) ps
      end
  end.

Definition is_paused (ps : list (jsstring * PauseMark)) (t : jsstring) (p : Z) : bool :=
  match mark_of t ps with
  | Some m => pm_all m || mem_Z p (pm_parts m)
  | None => false
  end.

Fixpoint update_nth {A : Type} (n : nat) (f : A -> A) (l : list A) : list A :=
  match l, n with
  | [], _ => []
  | x :: r, O => f x :: r
  | x :: r, S n' => x :: update_nth n' f r
  end.

Definition update_consumer (c : Handle) (f : ConsumerObj -> ConsumerObj)
  (k : KafkaModule) : KafkaModule :=
  mkKafkaModule (producer k) (consumer k) (producers k)
                (update_nth c f (consumers k)).

Definition set_paused (ps : list (jsstring * PauseMark)) (o : ConsumerObj) : ConsumerObj :=
  mkConsumerObj (c_groupId o) (c_subscribed o) (c_running o) ps.

(** Whether consumer [c] is paused on a partition of a topic. *)
Definition paused_at (w : World) (c : Handle) (t : jsstring) (p : Z) : bool :=
  match nth_error (consumers (kafka w)) c with
  | Some o => is_paused (c_paused o) t p
  | None => false
  end.

(** *** The broker *)

Definition partition_log (t : jsstring) (p : Z) (l : list BrokerRecord)
  : list BrokerRecord :=
  filter (fun r => str_eqb (br_topic r) t && Z.eqb (br_partition r) p) l.

Definition key_eqb (g t : jsstring) (p : Z) (k : jsstring * jsstring * Z) : bool :=
  let '(g', t', p') := k in str_eqb g' g && str_eqb t' t && Z.eqb p' p.

Fixpoint cursor_get (g t : jsstring) (p : Z)
  (cs : list (jsstring * jsstring * Z * nat)) : option nat :=
  match cs with
  | [] => None
  | (k, n) :: r => if key_eqb g t p k then Some n else cursor_get g t p r
  end.

Fixpoint cursor_set (g t : jsstring) (p : Z) (n : nat)
  (cs : list (jsstring * jsstring * Z * nat)) : list (jsstring * jsstring * Z * nat) :=
  match cs with
  | [] => [((g, t, p), n)]
  | (k, n') :: r =>
      if key_eqb g t p k then (k, n) :: r else (k, n') :: cursor_set g t p n r
  end.

(** Where a group reads next: its committed offset, or without one the
    start of the partition ([fromBeginning]) or its end. *)
Definition next_offset (w : World) (g t : jsstring) (p : Z) (fromBeginning : bool) : nat :=
  match cursor_get g t p (cursor (broker w)) with
  | Some n => n
  | None =>
      if fromBeginning then O
      else List.length (partition_log t p (log (broker w)))
  end.

(** The records that a send appends.  The value is kept as the text that
    [toString()] gives back, which is the text sent when that text is
    well-formed UTF-16 (a lone surrogate does not survive the UTF-8
    encoding of the value). *)
Definition append_records (e : Env) (r : ProducerRecord) (l : list BrokerRecord)
  : list BrokerRecord :=
  l ++ map (fun m => mkBrokerRecord (pr_topic r) (partitioner e (pm_key m))
                       (pm_key m) (Some (mkBuffer (pm_value m))))
           (pr_messages r).

(** *** Answering a call *)

Definition set_producer (p : Handle) (w : World) : World :=
  with_kafka (mkKafkaModule (Some p) (consumer (kafka w))
                (producers (kafka w)) (consumers (kafka w))) w.

Definition set_consumer (c : Handle) (w : World) : World :=
  with_kafka (mkKafkaModule (producer (kafka w)) (Some c)
                (producers (kafka w)) (consumers (kafka w))) w.

(** [kafka.producer()] and [kafka.consumer({ groupId })] make a new
    client object. *)
Definition new_producer (w : World) : World :=
  with_kafka (mkKafkaModule (producer (kafka w)) (consumer (kafka w))
                (S (producers (kafka w))) (consumers (kafka w))) w.

Definition new_consumer (g : jsstring) (w : World) : World :=
  with_kafka (mkKafkaModule (producer (kafka w)) (consumer (kafka w))
                (producers (kafka w))
                (consumers (kafka w) ++ [mkConsumerObj g [] false []])) w.

Definition append_log (r : ProducerRecord) (w : World) : World :=
  with_broker (mkBroker (append_records (env w) r (log (broker w)))
                        (cursor (broker w))) w.

Definition subscribe_consumer (c : Handle) (t : jsstring) (fb : bool) (w : World) : World :=
  with_kafka (update_consumer c
     (fun o => mkConsumerObj (c_groupId o) (c_subscribed o ++ [(t, fb)])
                             (c_running o) (c_paused o)) (kafka w)) w.

Definition run_consumer (c : Handle) (w : World) : World :=
  with_kafka (update_consumer c
     (fun o => mkConsumerObj (c_groupId o) (c_subscribed o) true (c_paused o))
     (kafka w)) w.

Definition pause_consumer (c : Handle) (tps : list TopicPartitions) (w : World) : World :=
  with_kafka (update_consumer c
     (fun o => set_paused (fold_left (fun ps tp => pause_one tp ps) tps (c_paused o)) o)
     (kafka w)) w.

Definition resume_consumer (c : Handle) (tps : list TopicPartitions) (w : World) : World :=
  with_kafka (update_consumer c
     (fun o => set_paused (fold_left (fun ps tp => resume_one tp ps) tps (c_paused o)) o)
     (kafka w)) w.

Definition set_timeout (cb : Callback) (ms : Z) (w : World) : World :=
  with_clock (mkClock (now (clock w))
                (timers (clock w) ++ [((now (clock w) + ms)%Z, cb)])) w.

(** A write that the database accepts, and one that it refuses. *)
Definition store_write (text : jsstring) (w : World) : World :=
  with_store (mkStore (tl (store_script (store w))) (rows (store w) ++ [text])
                      (store_failures (store w))) w.

Definition store_fail (w : World) : World :=
  with_store (mkStore (tl (store_script (store w))) (rows (store w))
                      (S (store_failures (store w)))) w.

Definition publish (ch payload : jsstring) (w : World) : World :=
  with_realtime (mkRealtime (published (realtime w) ++ [(ch, payload)])
                   (subscribed (realtime w)) (sockets (realtime w))
                   (received (realtime w)) (listeners (realtime w))) w.

Definition subscribe (ch : jsstring) (w : World) : World :=
  with_realtime (mkRealtime (published (realtime w))
                   (subscribed (realtime w) ++ [ch]) (sockets (realtime w))
                   (received (realtime w)) (listeners (realtime w))) w.

Definition add_listener (src : Source) (event : jsstring) (l : Listener) (w : World) : World :=
  with_realtime (mkRealtime (published (realtime w)) (subscribed (realtime w))
                   (sockets (realtime w)) (received (realtime w))
                   (listeners (realtime w) ++ [(src, event, l)])) w.

(** [io.emit]: every socket connected to this instance receives. *)
Definition emit_all (event : jsstring) (data : JSON.value) (w : World) : World :=
  with_realtime (mkRealtime (published (realtime w)) (subscribed (realtime w))
                   (sockets (realtime w))
                   (received (realtime w)
                      ++ map (fun s => (s, event, data)) (sockets (realtime w)))
                   (listeners (realtime w))) w.

Definition add_socket (s : SocketId) (w : World) : World :=
  with_realtime (mkRealtime (published (realtime w)) (subscribed (realtime w))
                   (sockets (realtime w) ++ [s]) (received (realtime w))
                   (listeners (realtime w))) w.

(** A call to a service settles by whether the service is up. *)
Definition settle_call (up : bool) (e : Error) (w w' : World) : World * Outcome unit :=
  if up then (w', Resolved tt) else (w, Rejected e).

Definition handle (ev : Event) (w : World) : World * Resp ev :=
  match ev return World * Resp ev with
  | Console _ _ => (w, tt)
  | DateNow => (w, now (clock w))
  | ReadProducer => (w, producer (kafka w))
  | WriteProducer p => (set_producer p w, tt)
  | ReadConsumer => (w, consumer (kafka w))
  | WriteConsumer c => (set_consumer c w, tt)
  | KafkaProducer => (new_producer w, producers (kafka w))
  | ProducerConnect _ => settle_call (kafka_up (env w)) KafkaError w w
  | ProducerSend _ r => settle_call (kafka_up (env w)) KafkaError w (append_log r w)
  | KafkaConsumer g => (new_consumer g w, List.length (consumers (kafka w)))
  | ConsumerConnect _ => settle_call (kafka_up (env w)) KafkaError w w
  | ConsumerSubscribe c t fb =>
      settle_call (kafka_up (env w)) KafkaError w (subscribe_consumer c t fb w)
  | ConsumerRun c => settle_call (kafka_up (env w)) KafkaError w (run_consumer c w)
  | ConsumerPause c tps => (pause_consumer c tps w, tt)
  | ConsumerResume c tps => (resume_consumer c tps w, tt)
  | SetTimeout cb ms => (set_timeout cb ms w, tt)
  | PrismaMessageCreate text =>
      match store_script (store w) with
      | false :: _ => (store_fail w, Rejected PrismaError)
      | _ => (store_write text w, Resolved tt)
      end
  | RedisPublish ch payload =>
      settle_call (redis_up (env w)) RedisError w (publish ch payload w)
  | RedisSubscribe ch =>
      settle_call (redis_up (env w)) RedisError w (subscribe ch w)
  | SubOn event l => (add_listener SrcSub event l w, tt)
  | IoOn event l => (add_listener SrcIo event l w, tt)
  | SocketOn s event l => (add_listener (SrcSocket s) event l w, tt)
  | IoEmit event data => (emit_all event data w, tt)
  end.

(** *** Running a program *)

Record Result (A : Type) : Type := mkResult {
  trace : list Event;
  final : World;
  outcome : Outcome A
}.

Definition traced {A : Type} (ev : Event) (res : Result A) : Result A :=
  mkResult (ev :: trace res) (final res) (outcome res).

(** The calls a program makes, the world it leaves and how it settles. *)
Fixpoint run {A : Type} (p : Prog A) (w : World) : Result A :=
  match p with
  | Ret a => mkResult [] w (Resolved a)
  | Throw e => mkResult [] w (Rejected e)
  | Do ev k => let (w', r) := handle ev w in traced ev (run (k r) w')
  end.

(** *** What the outside does on its own *)

(** The promise of an asynchronous listener is awaited by nobody: when it
    rejects, the error is an unhandled rejection of the process. *)
Definition settle (r : Result unit) : World :=
  match outcome r with
  | Resolved _ => final r
  | Rejected e => with_unhandled (unhandled (final r) ++ [e]) (final r)
  end.

Definition source_eqb (a b : Source) : bool :=
  match a, b with
  | SrcIo, SrcIo => true
  | SrcSub, SrcSub => true
  | SrcSocket s, SrcSocket s' => Nat.eqb s s'
  | _, _ => false
  end.

Definition listeners_for (src : Source) (event : jsstring) (w : World) : list Listener :=
  map snd
    (filter (fun x => source_eqb (fst (fst x)) src && str_eqb (snd (fst x)) event)
            (listeners (realtime w))).

Inductive Arg : Type :=
| ArgSocket (s : SocketId)
| ArgClient (message : jsstring)
| ArgBus (channel message : jsstring).

Definition listener_prog (l : Listener) (a : Arg) : Prog unit :=
  match l, a with
  | OnConnection, ArgSocket s => on_connection s
  | OnEventMessage, ArgClient m => on_event_message m
  | OnRedisMessage, ArgBus ch m => on_redis_message ch m
  | _, _ => Ret tt
  end.

(** Every listener registered for the event runs, in registration order. *)
Definition dispatch (src : Source) (event : jsstring) (a : Arg) (w : World) : World :=
  fold_left (fun w l => settle (run (listener_prog l a) w))
            (listeners_for src event w) w.

Definition mem_nat (n : nat) (l : list nat) : bool := existsb (Nat.eqb n) l.
Definition mem_str (s : jsstring) (l : list jsstring) : bool := existsb (str_eqb s) l.

(** A client connects to this instance. *)
Definition client_connects (s : SocketId) (w : World) : World :=
  dispatch SrcIo (js "connection") (ArgSocket s) (add_socket s w).

(** A connected client emits [event] with [{ message }]. *)
Definition client_emits (s : SocketId) (event message : jsstring) (w : World) : World :=
  if mem_nat s (sockets (realtime w))
  then dispatch (SrcSocket s) event (ArgClient message) w
  else w.

(** Redis delivers a payload published on a channel to the [sub]
    connection of this instance. *)
Definition redis_delivers (channel payload : jsstring) (w : World) : World :=
  if mem_str channel (subscribed (realtime w))
  then dispatch SrcSub (js "message") (ArgBus channel payload) w
  else w.

Fixpoint subscription (t : jsstring) (subs : list (jsstring * bool)) : option bool :=
  match subs with
  | [] => None
  | (t', fb) :: r => if str_eqb t' t then Some fb else subscription t r
  end.

Definition commit (g t : jsstring) (p : Z) (n : nat) (w : World) : World :=
  with_broker (mkBroker (log (broker w)) (cursor_set g t p n (cursor (broker w)))) w.

(** The kafkajs runner, one message at a time: a running consumer that is
    not paused on the partition is handed the record at its offset; when
    the promise of [eachMessage] resolves the offset is resolved and
    committed, when it rejects the offset stays and the record is fetched
    again.  Each record is fetched when it is handed over: a batch that
    the client had fetched before a pause, and still hands over after it,
    is not modelled, so nothing is concluded from a paused partition
    being handed nothing. *)
Definition poll (c : Handle) (t : jsstring) (p : Z) (w : World) : World :=
  match nth_error (consumers (kafka w)) c with
  | Some o =>
      match subscription t (c_subscribed o) with
      | Some fb =>
          if c_running o && negb (is_paused (c_paused o) t p) then
            let n := next_offset w (c_groupId o) t p fb in
            match nth_error (partition_log t p (log (broker w))) n with
            | Some r =>
                let res := run (eachMessage c
                                  (mkPayload t p (mkKafkaMessage n (br_value r)))) w in
                match outcome res with
                | Resolved _ => commit (c_groupId o) t p (S n) (final res)
                | Rejected _ => final res
                end
            | None => w
            end
          else w
      | None => w
      end
  | None => w
  end.

Definition callback_prog (cb : Callback) : Prog unit :=
  match cb with
  | ResumeCallback c => resume_callback c
  end.

(** Time passes: the timers that are due fire, in the order they were set. *)
Definition tick (ms : Z) (w : World) : World :=
  let t := (now (clock w) + ms)%Z in
  let due := filter (fun x => (fst x <=? t)%Z) (timers (clock w)) in
  let rest := filter (fun x => negb (fst x <=? t)%Z) (timers (clock w)) in
  fold_left (fun w x => settle (run (callback_prog (snd x)) w)) due
            (with_clock (mkClock t rest) w).

(** A process that has just been started: nothing in memory. *)
Definition process_start (e : Env) (t : Z) (b : Broker) (s : Store) : World :=
  mkWorld e (mkClock t []) (mkKafkaModule None None O []) b s
          (mkRealtime [] [] [] [] []) [].

(** The process is stopped and started again: the broker and the database
    keep what they hold. *)
Definition restart (w : World) : World :=
  process_start (env w) (now (clock w)) (broker w) (store w).

(** index.ts runs. *)
Definition boot (w : World) : World := settle (run init w).

(** What a run does after the process is up. *)
Inductive Step : Type :=
| StepPoll (c : Handle) (t : jsstring) (p : Z)
| StepTick (ms : Z)
| StepConnect (s : SocketId)
| StepClient (s : SocketId) (event message : jsstring)
| StepRedis (channel payload : jsstring)
| StepProduce (message : jsstring).

Definition step (s : Step) (w : World) : World :=
  match s with
  | StepPoll c t p => poll c t p w
  | StepTick ms => tick ms w
  | StepConnect s => client_connects s w
  | StepClient s event message => client_emits s event message w
  | StepRedis channel payload => redis_delivers channel payload w
  | StepProduce message => final (run (produceMessage message) w)
  end.

Definition steps (l : list Step) (w : World) : World :=
  fold_left (fun w s => step s w) l w.

(** Several instances behind one Redis: what instance [i] publishes while
    it serves the client is delivered to every instance. *)
Definition cluster_client_emits (i : nat) (s : SocketId) (message : jsstring)
  (cl : list World) : list World :=
  match nth_error cl i with
  | Some w =>
      let w' := client_emits s (js "event:message") message w in
      let new := skipn (List.length (published (realtime w))) (published (realtime w')) in
      fold_left (fun cl m => map (redis_delivers (fst m) (snd m)) cl) new
                (update_nth i (fun _ => w') cl)
  | None => cl
  end.

(** Events of a trace, by kind. *)
Definition is_send (ev : Event) : bool :=
  match ev with ProducerSend _ _ => true | _ => false end.
Definition is_publish (ev : Event) : bool :=
  match ev with RedisPublish _ _ => true | _ => false end.
Definition is_store_write (ev : Event) : bool :=
  match ev with PrismaMessageCreate _ => true | _ => false end.
Definition is_pause (ev : Event) : bool :=
  match ev with ConsumerPause _ _ => true | _ => false end.
Definition is_emit (ev : Event) : bool :=
  match ev with IoEmit _ _ => true | _ => false end.
Definition is_kafka_client (ev : Event) : bool :=
  match ev with
  | KafkaProducer | KafkaConsumer _ | ProducerConnect _ | ConsumerConnect _ => true
  | _ => false
  end.

(** The directive of the pause and of the resume in [eachMessage]: the
    topic, without [partitions]. *)
Definition whole_topic : list TopicPartitions :=
  [ {| tp_topic := MESSAGES; tp_partitions := None |} ].

(** The first line that [eachMessage] logs. *)
Definition received_line (p : EachMessagePayload) : Event :=
  Console Log
    [ LStr (js "Kafka message received:");
      LObj [ (js "partition", LNum (partition p));
             (js "offset", LStr (number_to_string (Z.of_nat (offset (message p)))));
             (js "value",
               match value (message p) with
               | Some b => LStr (toString b)
               | None => LUndefined
               end) ] ].

(** The durable and the Kafka side of a world. *)
Definition backend (w : World) : Env * Clock * KafkaModule * Broker * Store :=
  (env w, clock w, kafka w, broker w, store w).

Definition listener_eqb (a b : Listener) : bool :=
  match a, b with
  | OnConnection, OnConnection => true
  | OnEventMessage, OnEventMessage => true
  | OnRedisMessage, OnRedisMessage => true
  | _, _ => false
  end.

(** The listeners are exactly the one given. *)
Definition only (l : Listener) (ls : list Listener) : bool :=
  match ls with
  | [x] => listener_eqb x l
  | _ => false
  end.

(** An instance that serves: its [sub] connection is subscribed to the
    channel and the listeners are the ones that [initListeners] and the
    connections of its clients have registered. *)
Definition servingb (w : World) : bool :=
  mem_str MESSAGES (subscribed (realtime w))
  && only OnConnection (listeners_for SrcIo (js "connection") w)
  && only OnRedisMessage (listeners_for SrcSub (js "message") w)
  && forallb (fun s => only OnEventMessage
                         (listeners_for (SrcSocket s) (js "event:message") w))
             (sockets (realtime w))
  && forallb (fun x => match fst (fst x) with
                       | SrcSocket s => mem_nat s (sockets (realtime w))
                       | _ => true
                       end)
             (listeners (realtime w)).

Definition serving (w : World) : Prop := servingb w = true.

(** What a client sees of a chat message. *)
Definition chat (t : jsstring) : JSON.value := JObject [(js "message", JString t)].

(** No consumer object holds a pause mark. *)
Definition no_pause (w : World) : Prop :=
  Forall (fun o => c_paused o = []) (consumers (kafka w)).

(** The state machine of the Persistence Consumer, read off the world:
    consumer [c] is Running on a partition when it is not paused there. *)
Inductive PauseState : Type :=
| Running
| Paused.

Definition pause_state (w : World) (c : Handle) (t : jsstring) (p : Z) : PauseState :=
  if paused_at w c t p then Paused else Running.

(** *** Concrete worlds *)

Definition group : jsstring := js "message-consumer-group".

(** Every service up; every key on partition 0. *)
Definition env_up : Env := mkEnv true true (fun _ => 0%Z).

(** A process started on an empty log and an empty database. *)
Definition fresh : World :=
  process_start env_up 1700000000000 (mkBroker [] []) (mkStore [] [] 0).

(** An instance with two clients, and one with a single client. *)
Definition two_clients : World := client_connects 8 (client_connects 7 (boot fresh)).
Definition one_client : World := client_connects 3 (boot fresh).

Definition record_on (p : Z) (text : jsstring) : BrokerRecord :=
  mkBrokerRecord MESSAGES p (js "message-1700000000000") (Some (mkBuffer text)).

(** The log holds "x" then "y" on partition 0 and "z" on partition 1; the
    database refuses the first write and accepts the later ones. *)
Definition failing_once : World :=
  boot (process_start env_up 1700000000000
          (mkBroker [record_on 0 (js "x"); record_on 0 (js "y"); record_on 1 (js "z")] [])
          (mkStore [false] [] 0)).

(** A record with an empty value that is not null. *)
Definition empty_valued : EachMessagePayload :=
  mkPayload MESSAGES 0 (mkKafkaMessage 0 (Some (mkBuffer []))).

(** The log starts with a record whose value is null. *)
Definition tombstone : BrokerRecord :=
  mkBrokerRecord MESSAGES 0 (js "message-1700000000000") None.

Definition with_tombstone : World :=
  boot (process_start env_up 1700000000000
          (mkBroker [tombstone; record_on 0 (js "y")] []) (mkStore [] [] 0)).

(** The one consumer of a booted process. *)
Definition the_consumer : ConsumerObj :=
  mkConsumerObj group [(MESSAGES, true)] true [].

(** [failing_once] after the runner has delivered "x", the pause has
    elapsed and the runner has delivered again; then at any later time. *)
Definition after_retry : World :=
  poll 0 MESSAGES 0 (tick 60000 (poll 0 MESSAGES 0 failing_once)).

Definition later (t : Z) : World := with_clock (mkClock t []) after_retry.

(** A minute passes and the runner delivers, over and over. *)
Definition minute_and_poll (w : World) : World := poll 0 MESSAGES 0 (tick 60000 w).

(** The record that [produceMessage] sends. *)
Definition produced (t : Z) (message : jsstring) : ProducerRecord :=
  mkProducerRecord
    [mkProducerMessage (js "message-" ++ number_to_string t) message] MESSAGES.

(** Symbolic execution of a program: unfold up to the next call whose
    answer depends on the world, then read the result off. *)
Ltac run_open :=
  unfold console_log, console_error, await, call;
  cbn [bind try_catch run handle].

Ltac run_close := cbn [traced trace final outcome]; try reflexivity.


From Stdlib Require Import DecimalZ.

(* ================================================================= *)
(** ** More of the outside, for the properties beyond the claims *)

Definition with_env (e : Env) (w : World) : World :=
  mkWorld e (clock w) (kafka w) (broker w) (store w) (realtime w) (unhandled w).

(** The same world with Kafka reachable, and with Redis unreachable. *)
Definition kafka_returns (w : World) : World :=
  with_env (mkEnv (redis_up (env w)) true (partitioner (env w))) w.

Definition redis_fails (w : World) : World :=
  with_env (mkEnv false (kafka_up (env w)) (partitioner (env w))) w.

(** The keys of the messages that a trace sends to Kafka. *)
Definition sent_keys (tr : list Event) : list jsstring :=
  flat_map (fun ev => match ev with
                      | ProducerSend _ r => map pm_key (pr_messages r)
                      | _ => []
                      end) tr.



(** Kafka unreachable. *)
Definition env_kafka_down : Env := mkEnv true false (fun _ => 0%Z).

Definition fresh_kafka_down : World :=
  process_start env_kafka_down 1700000000000 (mkBroker [] []) (mkStore [] [] 0).

(** The text that a record of the log gives the store: none when its
    value is null. *)
Definition text_of (r : BrokerRecord) : list jsstring :=
  match br_value r with
  | Some b => [toString b]
  | None => []
  end.

(** A store that accepts the writes to come. *)
Definition accepting (w : World) : Prop :=
  Forall (fun b => b = true) (store_script (store w)).

(** The log of [failing_once], and a store that accepts. *)
Definition three_records : World :=
  boot (process_start env_up 1700000000000
          (mkBroker [record_on 0 (js "x"); record_on 0 (js "y"); record_on 1 (js "z")] [])
          (mkStore [true] [] 0)).

(** The fold of [tick]: the callbacks that are due run one after the
    other. *)
Definition fire (due : list (Z * Callback)) (w : World) : World :=
  fold_left (fun w x => settle (run (callback_prog (snd x)) w)) due w.

(** Time does not run backwards. *)
Definition forward (s : Step) : Prop :=
  match s with
  | StepTick ms => (0 <= ms)%Z
  | _ => True
  end.

(** Every pause has its resume pending, due within a minute, and only the
    topic of the chat is ever paused. *)
Definition resume_pending (w : World) : Prop :=
  forall c t q,
    paused_at w c t q = true ->
    str_eqb MESSAGES t = true /\
    exists d, In (d, ResumeCallback c) (timers (clock w)) /\
              (d <= now (clock w) + 60000)%Z.

(** No consumer has been started. *)
Definition none_running (w : World) : Prop :=
  Forall (fun o => c_running o = false) (consumers (kafka w)).

(** A log with records on it, when the process starts without Kafka. *)
Definition start_without_kafka : World :=
  boot (process_start env_kafka_down 1700000000000
          (mkBroker [record_on 0 (js "x"); record_on 0 (js "y")] [])
          (mkStore [] [] 0)).

(** A client of instance [i] sends one message after the other. *)
Definition cluster_chat (i : nat) (s : SocketId) (ts : list jsstring)
  (cl : list World) : list World :=
  fold_left (fun cl t => cluster_client_emits i s t cl) ts cl.

(** What the clients of an instance are sent when the messages [ts] are
    emitted one after the other. *)
Definition emitted (ts : list jsstring) (w : World)
  : list (SocketId * jsstring * JSON.value) :=
  flat_map (fun t => map (fun s => (s, js "message", chat t)) (sockets (realtime w))) ts.

(* ================================================================= *)
(** ** The web page (page.tsx) *)

(** A [<li key=...>] of the page and its text. *)
Record ListItem : Type := mkItem {
  li_key : jsstring;
  li_text : jsstring
}.

(** [messages.map((e, index) => <li key={`${index}-${e}`}>{e}</li>)],
    from a given index on. *)
Fixpoint items_from (index : nat) (messages : list jsstring) : list ListItem :=
  match messages with
  | [] => []
  | e :: r =>
      mkItem (number_to_string (Z.of_nat index) ++ js "-" ++ e) e
      :: items_from (S index) r
  end.

Definition Page_items (messages : list jsstring) : list ListItem :=
  items_from 0 messages.

(** What the user does on the page: types in the input, or clicks Send. *)
Inductive UiEvent : Type :=
| Change (value : jsstring)
| Click.

(** One event, given the state [message]: the new state and the calls of
    [sendMessage].  [onChange] sets the state to the value of the input,
    [onClick] sends the state. *)
Definition Page_on (message : jsstring) (ev : UiEvent) : jsstring * list jsstring :=
  match ev with
  | Change v => (v, [])
  | Click => (message, [message])
  end.

Fixpoint Page_run (evs : list UiEvent) (message : jsstring) : jsstring * list jsstring :=
  match evs with
  | [] => (message, [])
  | ev :: r =>
      let (m1, s1) := Page_on message ev in
      let (m2, s2) := Page_run r m1 in
      (m2, s1 ++ s2)
  end.

(** A visit of the page: the state starts as [useState("")] sets it. *)
Definition Page_session (evs : list UiEvent) : jsstring * list jsstring :=
  Page_run evs (js "").

(* ================================================================= *)
(** ** The static accessors of SocketService *)

(** [SocketService.instance]: [made] tells whether the static field
    [_instance] is set; the result is what the access runs and the field
    after it.  The instance is constructed on the first access only. *)
Definition SocketService_instance (made : bool) : Prog unit * bool :=
  if made then (Ret tt, true) else (SocketService_constructor, true).

(** [SocketService.io] and [SocketService.initListeners()]. *)
Inductive Access : Type :=
| UseIo
| UseInitListeners.

Definition access (a : Access) (made : bool) : Prog unit * bool :=
  let (p, m) := SocketService_instance made in
  match a with
  | UseIo => (p, m)
  | UseInitListeners => (p ;; initListeners, m)
  end.

(** Accesses one after the other. *)
Fixpoint accesses (l : list Access) (made : bool) : Prog unit :=
  match l with
  | [] => Ret tt
  | a :: r => let (p, m) := access a made in p ;; accesses r m
  end.

Fixpoint count_init (l : list Access) : nat :=
  match l with
  | [] => O
  | UseIo :: r => count_init r
  | UseInitListeners :: r => S (count_init r)
  end.

(** A process that has just been started, with a client connected. *)
Definition started_with_client : World :=
  add_socket 5 fresh.

(** A text that Kafka gives back as it was sent: code units, every
    surrogate half of a pair. *)
Definition sendable (m : jsstring) : Prop :=
  wf_string m /\ well_formed m = true.


(* ================================================================= *)
(** ** Calls that overlap *)

(** The calls that hand back a promise. *)
Definition is_promise (ev : Event) : bool :=
  match ev with
  | ProducerConnect _ | ProducerSend _ _ | ConsumerConnect _
  | ConsumerSubscribe _ _ _ | ConsumerRun _ | PrismaMessageCreate _
  | RedisPublish _ _ | RedisSubscribe _ => true
  | _ => false
  end.

(** An asynchronous function that awaits the promises it gets runs, when
    called, up to its first [await]: the calls up to and including the
    first that hands back a promise.  What is left of it goes on when
    the promise has settled. *)
Fixpoint run_to_await {A : Type} (p : Prog A) (w : World)
  : list Event * World * Prog A :=
  match p with
  | Do ev k =>
      let (w', r) := handle ev w in
      if is_promise ev then ([ev], w', k r)
      else
        let '(tr, w'', rest) := run_to_await (k r) w' in
        (ev :: tr, w'', rest)
  | _ => ([], w, p)
  end.

(** Two calls that overlap: the second is made while the first awaits;
    the first then goes on to its end, and the second after it. *)
Definition overlapped {A B : Type} (p : Prog A) (q : Prog B) (w : World)
  : Result A * Result B :=
  let '(tr1, w1, rest1) := run_to_await p w in
  let '(tr2, w2, rest2) := run_to_await q w1 in
  let r1 := run rest1 w2 in
  let r2 := run rest2 (final r1) in
  (mkResult (tr1 ++ trace r1) (final r1) (outcome r1),
   mkResult (tr2 ++ trace r2) (final r2) (outcome r2)).

(* ================================================================= *)
(** ** JSON: what is serialised parses back *)

Unset Implicit Arguments.

Section JSONRoundTrip.

Local Open Scope N_scope.

Lemma hex_value_digit (d : N) : d < 16 -> hex_value (hex_digit d) = Some d.
Proof.
  intros Hd. unfold hex_value, hex_digit.
  destruct (N.ltb_spec d 10).
  - replace ((48 <=? 48 + d) && (48 + d <=? 57))%bool with true.
    + f_equal. lia.
    + symmetry. apply andb_true_iff. split; apply N.leb_le; lia.
  - replace ((48 <=? 87 + d) && (87 + d <=? 57))%bool with false.
    + replace ((97 <=? 87 + d) && (87 + d <=? 102))%bool with true.
      * f_equal. lia.
      * symmetry. apply andb_true_iff. split; apply N.leb_le; lia.
    + symmetry. apply andb_false_iff. right. apply N.leb_gt. lia.
Qed.

Lemma nibbles (c : N) :
  c / 4096 * 4096 + (c / 256) mod 16 * 256 + (c / 16) mod 16 * 16 + c mod 16 = c.
Proof.
  replace (c / 4096) with (c / 16 / 16 / 16)
    by (rewrite !N.Div0.div_div; reflexivity).
  replace (c / 256) with (c / 16 / 16)
    by (rewrite !N.Div0.div_div; reflexivity).
  pose proof (N.div_mod c 16 ltac:(lia)).
  pose proof (N.div_mod (c / 16) 16 ltac:(lia)).
  pose proof (N.div_mod (c / 16 / 16) 16 ltac:(lia)).
  lia.
Qed.

Lemma hex4_unicode_escape (c : N) :
  wf_unit c ->
  hex4 (hex_digit (c / 4096)) (hex_digit ((c / 256) mod 16))
       (hex_digit ((c / 16) mod 16)) (hex_digit (c mod 16)) = Some c.
Proof.
  unfold wf_unit. intros Hc. unfold hex4.
  rewrite !hex_value_digit.
  - f_equal. apply nibbles.
  - apply N.mod_upper_bound. lia.
  - apply N.mod_upper_bound. lia.
  - apply N.mod_upper_bound. lia.
  - apply N.Div0.div_lt_upper_bound. lia.
Qed.

(** A character that is written as it is, is read as it is. *)
Lemma parse_chars_plain (c : N) (tail acc : jsstring) :
  c <> 34 -> c <> 92 -> 32 <= c ->
  parse_chars (c :: tail) acc = parse_chars tail (c :: acc).
Proof.
  intros H34 H92 H32. cbn [parse_chars].
  destruct (N.eqb_spec c 34); [contradiction|].
  destruct (N.eqb_spec c 92); [contradiction|].
  destruct (N.ltb_spec c 32); [lia|]. reflexivity.
Qed.

Lemma short_escape_unescape (c e : N) :
  short_escape c = Some e -> e <> 117 /\ unescape e = Some c.
Proof.
  unfold short_escape.
  repeat match goal with
         | |- context [N.eqb c ?k] => destruct (N.eqb_spec c k); [subst c|]
         end;
  intros He; inversion He; subst; split; try discriminate; reflexivity.
Qed.

Lemma short_escape_none (c : N) :
  short_escape c = None -> c <> 34 /\ c <> 92.
Proof.
  unfold short_escape.
  repeat match goal with
         | |- context [N.eqb c ?k] => destruct (N.eqb_spec c k); [subst c|]
         end;
  intros He; try discriminate. split; assumption.
Qed.

(** One quoted code unit is read back as that code unit. *)
Lemma parse_chars_quote_unit (c : N) (tail acc : jsstring) :
  wf_unit c ->
  parse_chars (quote_unit c ++ tail) acc = parse_chars tail (c :: acc).
Proof.
  intros Hc. unfold quote_unit.
  destruct (short_escape c) as [e|] eqn:He.
  - apply short_escape_unescape in He. destruct He as [Hu He].
    cbn [app parse_chars]. cbn [N.eqb Pos.eqb].
    destruct (N.eqb_spec e 117); [contradiction|].
    rewrite He. reflexivity.
  - apply short_escape_none in He. destruct He as [H34 H92].
    destruct ((c <? 32) || is_high c || is_low c)%bool eqn:Hesc.
    + unfold unicode_escape. cbn [app parse_chars]. cbn [N.eqb Pos.eqb].
      rewrite hex4_unicode_escape by assumption. reflexivity.
    + apply orb_false_iff in Hesc. destruct Hesc as [Hesc _].
      apply orb_false_iff in Hesc. destruct Hesc as [Hlt _].
      apply N.ltb_ge in Hlt.
      cbn [app]. apply parse_chars_plain; assumption.
Qed.

Lemma is_high_plain (c : N) : is_high c = true -> c <> 34 /\ c <> 92 /\ 32 <= c.
Proof.
  unfold is_high. intros H. apply andb_true_iff in H. destruct H as [H _].
  apply N.leb_le in H. lia.
Qed.

Lemma is_low_plain (c : N) : is_low c = true -> c <> 34 /\ c <> 92 /\ 32 <= c.
Proof.
  unfold is_low. intros H. apply andb_true_iff in H. destruct H as [H _].
  apply N.leb_le in H. lia.
Qed.

Lemma quote_chars_cons2 (c d : N) (r : jsstring) :
  quote_chars (c :: d :: r) =
  if (is_high c && is_low d)%bool then c :: d :: quote_chars r
  else quote_unit c ++ quote_chars (d :: r).
Proof. reflexivity. Qed.

Lemma parse_chars_quote_chars_upto (n : nat) :
  forall (s acc rest : jsstring),
    (List.length s <= n)%nat -> wf_string s ->
    parse_chars (quote_chars s ++ 34 :: rest) acc = Some (rev acc ++ s, rest).
Proof.
  induction n as [|n IH]; intros s acc rest Hlen Hwf.
  - destruct s; [|cbn in Hlen; lia].
    cbn. rewrite app_nil_r. reflexivity.
  - destruct s as [|c r].
    + cbn. rewrite app_nil_r. reflexivity.
    + inversion Hwf as [|? ? Hc Hr]; subst.
      cbn [List.length] in Hlen.
      destruct r as [|d r'].
      * cbn [quote_chars]. rewrite parse_chars_quote_unit by assumption.
        cbn. reflexivity.
      * rewrite quote_chars_cons2.
        destruct (is_high c && is_low d)%bool eqn:Hpair.
        -- apply andb_true_iff in Hpair. destruct Hpair as [Hh Hl].
           apply is_high_plain in Hh. apply is_low_plain in Hl.
           inversion Hr as [|? ? Hd Hr']; subst.
           cbn [app].
           rewrite parse_chars_plain by tauto.
           rewrite parse_chars_plain by tauto.
           rewrite IH; [|cbn [List.length] in Hlen; lia|assumption].
           cbn [rev]. rewrite <- !app_assoc. reflexivity.
        -- rewrite <- app_assoc.
           rewrite parse_chars_quote_unit by assumption.
           rewrite IH; [|lia|assumption].
           cbn [rev]. rewrite <- app_assoc. reflexivity.
Qed.

(** The body of a quoted string, up to its closing quote, is read back as
    the string. *)
Lemma parse_chars_quote_chars (s acc rest : jsstring) :
  wf_string s ->
  parse_chars (quote_chars s ++ 34 :: rest) acc = Some (rev acc ++ s, rest).
Proof.
  apply (parse_chars_quote_chars_upto (List.length s)). apply Nat.le_refl.
Qed.

Lemma wf_string_js (s : string) : wf_string (js s).
Proof.
  induction s as [|a s IH]; cbn [js]; constructor; [|exact IH].
  unfold wf_unit. pose proof (N_ascii_bounded a). lia.
Qed.

(** An object with one field whose value is a string is read back, with
    whatever follows it left over. *)
Lemma parse_value_one_field (k t rest : jsstring) (f : nat) :
  wf_string k -> wf_string t ->
  parse_value (S (S (S f))) (stringify (JObject [(k, JString t)]) ++ rest)
  = Some (JObject [(k, JString t)], rest).
Proof.
  intros Hk Ht.
  replace (stringify (JObject [(k, JString t)]) ++ rest)
    with (123 :: 34 :: quote_chars k ++ 34 :: 58 :: 34 :: quote_chars t
              ++ 34 :: 125 :: rest).
  2:{ cbn [stringify quote app].
      repeat (rewrite <- ?app_assoc; cbn [app]). reflexivity. }
  cbn [parse_value skip_ws is_ws N.eqb Pos.eqb orb].
  cbn [parse_members skip_ws is_ws N.eqb Pos.eqb orb].
  rewrite parse_chars_quote_chars by assumption.
  cbn [rev app skip_ws is_ws N.eqb Pos.eqb orb].
  cbn [parse_value skip_ws is_ws N.eqb Pos.eqb orb].
  rewrite parse_chars_quote_chars by assumption.
  cbn [rev app skip_ws is_ws N.eqb Pos.eqb orb obj_set].
  reflexivity.
Qed.

(** [JSON.parse(JSON.stringify({ k: t }))] is [{ k: t }]. *)
Lemma parse_stringify_one_field (k t : jsstring) :
  wf_string k -> wf_string t ->
  JSON.parse (stringify (JObject [(k, JString t)])) = Some (JObject [(k, JString t)]).
Proof.
  intros Hk Ht. unfold JSON.parse.
  replace (2 * List.length (stringify (JObject [(k, JString t)])) + 2)%nat
    with (S (S (S (2 * List.length (stringify (JObject [(k, JString t)])) - 1))))
    by (cbn [stringify List.length]; lia).
  rewrite <- (app_nil_r (stringify (JObject [(k, JString t)]))) at 2.
  rewrite parse_value_one_field by assumption.
  reflexivity.
Qed.

(** *** What is serialised is well-formed UTF-16 *)

Lemma well_formed_ascii (c : N) (r : jsstring) :
  c < 128 -> well_formed (c :: r) = well_formed r.
Proof.
  intros Hc. cbn [well_formed]. unfold is_high, is_low.
  destruct (N.leb_spec 55296 c); [lia|].
  destruct (N.leb_spec 56320 c); [lia|]. reflexivity.
Qed.

Lemma hex_digit_ascii (d : N) : d < 16 -> hex_digit d < 128.
Proof. unfold hex_digit. intros Hd. destruct (d <? 10); lia. Qed.

Lemma short_escape_ascii (c e : N) : short_escape c = Some e -> e < 128.
Proof.
  unfold short_escape.
  repeat match goal with
         | |- context [N.eqb c ?k] => destruct (N.eqb c k)
         end;
  intros He; inversion He; subst; lia.
Qed.

Lemma well_formed_quote_unit (c : N) (r : jsstring) :
  wf_unit c -> well_formed (quote_unit c ++ r) = well_formed r.
Proof.
  unfold wf_unit. intros Hc. unfold quote_unit.
  destruct (short_escape c) as [e|] eqn:He.
  - apply short_escape_ascii in He. cbn [app].
    rewrite !well_formed_ascii by lia. reflexivity.
  - destruct ((c <? 32) || is_high c || is_low c)%bool eqn:Hesc.
    + unfold unicode_escape. cbn [app].
      rewrite !well_formed_ascii; try lia; try reflexivity;
        apply hex_digit_ascii;
        try (apply N.mod_upper_bound; lia).
      apply N.Div0.div_lt_upper_bound. lia.
    + apply orb_false_iff in Hesc. destruct Hesc as [Hesc Hlow].
      apply orb_false_iff in Hesc. destruct Hesc as [_ Hhigh].
      cbn [app well_formed]. rewrite Hhigh, Hlow. reflexivity.
Qed.

Lemma well_formed_quote_chars_upto (n : nat) :
  forall (s rest : jsstring),
    (List.length s <= n)%nat -> wf_string s ->
    well_formed (quote_chars s ++ rest) = well_formed rest.
Proof.
  induction n as [|n IH]; intros s rest Hlen Hwf.
  - destruct s; [reflexivity|cbn in Hlen; lia].
  - destruct s as [|c r]; [reflexivity|].
    inversion Hwf as [|? ? Hc Hr]; subst.
    cbn [List.length] in Hlen.
    destruct r as [|d r'].
    + cbn [quote_chars]. apply well_formed_quote_unit. exact Hc.
    + rewrite quote_chars_cons2.
      destruct (is_high c && is_low d)%bool eqn:Hpair.
      * apply andb_true_iff in Hpair. destruct Hpair as [Hh Hl].
        inversion Hr as [|? ? Hd Hr']; subst.
        cbn [app well_formed]. rewrite Hh, Hl. cbn [andb].
        apply IH; [cbn [List.length] in Hlen; lia|assumption].
      * rewrite <- app_assoc. rewrite well_formed_quote_unit by exact Hc.
        apply IH; [lia|assumption].
Qed.

Lemma well_formed_quote_chars (s rest : jsstring) :
  wf_string s -> well_formed (quote_chars s ++ rest) = well_formed rest.
Proof.
  apply (well_formed_quote_chars_upto (List.length s)). apply Nat.le_refl.
Qed.

(** The serialisation of an object with one string field holds no lone
    surrogate, whatever the string. *)
Lemma well_formed_one_field (k t : jsstring) :
  wf_string k -> wf_string t ->
  well_formed (stringify (JObject [(k, JString t)])) = true.
Proof.
  intros Hk Ht.
  replace (stringify (JObject [(k, JString t)]))
    with (123 :: 34 :: quote_chars k ++ 34 :: 58 :: 34 :: quote_chars t
              ++ 34 :: 125 :: []).
  2:{ cbn [stringify quote app].
      repeat (rewrite <- ?app_assoc; cbn [app]). reflexivity. }
  rewrite !well_formed_ascii by lia.
  rewrite well_formed_quote_chars by assumption.
  rewrite !well_formed_ascii by lia.
  rewrite well_formed_quote_chars by assumption.
  reflexivity.
Qed.

End JSONRoundTrip.

(* ================================================================= *)
(** ** The programs, run *)

(** The handler of "event:message", run in any world. *)
Lemma run_on_event_message (w : World) (message : jsstring) :
  run (on_event_message message) w =
  let payload := stringify (JObject [(js "message", JString message)]) in
  let tr := [ Console Log [LStr (js "New Message Received:"); LStr message];
              RedisPublish MESSAGES payload ] in
  if redis_up (env w)
  then mkResult tr (publish MESSAGES payload w) (Resolved tt)
  else mkResult tr w (Rejected RedisError).
Proof.
  unfold on_event_message. run_open. unfold settle_call.
  destruct (redis_up (env w)); run_close.
Qed.

Lemma run_on_redis_message (w : World) (channel message : jsstring) :
  run (on_redis_message channel message) w =
  if str_eqb channel MESSAGES then
    match JSON.parse message with
    | Some data =>
        mkResult [ Console Log [LStr (js "New message from Redis:"); LStr message];
                   IoEmit (js "message") data ]
          (emit_all (js "message") data w) (Resolved tt)
    | None =>
        mkResult [ Console Log [LStr (js "New message from Redis:"); LStr message] ]
          w (Rejected SyntaxError)
    end
  else mkResult [] w (Resolved tt).
Proof.
  unfold on_redis_message.
  destruct (str_eqb channel MESSAGES); [|reflexivity].
  run_open. destruct (JSON.parse message); run_open; run_close.
Qed.

Lemma run_on_connection (w : World) (socket : SocketId) :
  run (on_connection socket) w =
  mkResult [ Console Log [LStr (js "New Socket Connected"); LNum (Z.of_nat socket)];
             SocketOn socket (js "event:message") OnEventMessage ]
    (add_listener (SrcSocket socket) (js "event:message") OnEventMessage w)
    (Resolved tt).
Proof. unfold on_connection. run_open. run_close. Qed.

Lemma run_createProducer (w : World) :
  run createProducer w =
  match producer (kafka w) with
  | Some p => mkResult [ReadProducer] w (Resolved p)
  | None =>
      let p := producers (kafka w) in
      if kafka_up (env w)
      then mkResult [ReadProducer; KafkaProducer; ProducerConnect p; WriteProducer p]
             (set_producer p (new_producer w)) (Resolved p)
      else mkResult [ReadProducer; KafkaProducer; ProducerConnect p]
             (new_producer w) (Rejected KafkaError)
  end.
Proof.
  unfold createProducer. run_open.
  destruct (producer (kafka w)) eqn:Hp.
  - run_open. run_close.
  - run_open. unfold settle_call. cbn [env with_kafka new_producer].
    destruct (kafka_up (env w)); run_open; run_close.
Qed.

Lemma run_createConsumer (w : World) (groupId : jsstring) :
  run (createConsumer groupId) w =
  match consumer (kafka w) with
  | Some c => mkResult [ReadConsumer] w (Resolved c)
  | None =>
      let c := List.length (consumers (kafka w)) in
      if kafka_up (env w)
      then mkResult [ReadConsumer; KafkaConsumer groupId; ConsumerConnect c;
                     WriteConsumer c]
             (set_consumer c (new_consumer groupId w)) (Resolved c)
      else mkResult [ReadConsumer; KafkaConsumer groupId; ConsumerConnect c]
             (new_consumer groupId w) (Rejected KafkaError)
  end.
Proof.
  unfold createConsumer. run_open.
  destruct (consumer (kafka w)) eqn:Hc.
  - run_open. run_close.
  - run_open. unfold settle_call. cbn [env with_kafka new_consumer].
    destruct (kafka_up (env w)); run_open; run_close.
Qed.

Lemma run_bind {A B : Type} (p : Prog A) (f : A -> Prog B) (w : World) :
  run (bind p f) w =
  match outcome (run p w) with
  | Resolved a =>
      let r := run (f a) (final (run p w)) in
      mkResult (trace (run p w) ++ trace r) (final r) (outcome r)
  | Rejected e => mkResult (trace (run p w)) (final (run p w)) (Rejected e)
  end.
Proof.
  revert w. induction p as [a|e|ev k IH]; intros w.
  - cbn. destruct (run (f a) w); reflexivity.
  - reflexivity.
  - cbn [bind run]. destruct (handle ev w) as [w' r].
    rewrite IH. cbn [traced trace final outcome].
    destruct (outcome (run (k r) w')); reflexivity.
Qed.

Lemma run_try_catch {A : Type} (p : Prog A) (h : Error -> Prog A) (w : World) :
  run (try_catch p h) w =
  match outcome (run p w) with
  | Resolved a => run p w
  | Rejected e =>
      let r := run (h e) (final (run p w)) in
      mkResult (trace (run p w) ++ trace r) (final r) (outcome r)
  end.
Proof.
  revert w. induction p as [a|e|ev k IH]; intros w.
  - reflexivity.
  - cbn. destruct (run (h e) w); reflexivity.
  - cbn [try_catch run]. destruct (handle ev w) as [w' r].
    rewrite IH. cbn [traced trace final outcome].
    destruct (outcome (run (k r) w')); reflexivity.
Qed.

Lemma run_produceMessage (w : World) (message : jsstring) :
  run (produceMessage message) w =
  let r := run createProducer w in
  match outcome r with
  | Resolved p =>
      let rec := produced (now (clock w)) message in
      if kafka_up (env w)
      then mkResult (trace r ++ [DateNow; ProducerSend p rec])
             (append_log rec (final r)) (Resolved true)
      else mkResult (trace r ++ [DateNow; ProducerSend p rec]) (final r)
             (Rejected KafkaError)
  | Rejected e => mkResult (trace r) (final r) (Rejected e)
  end.
Proof.
  unfold produceMessage. rewrite run_bind. rewrite run_createProducer.
  destruct (producer (kafka w)) eqn:Hp.
  - cbn [outcome trace final]. run_open. unfold settle_call.
    destruct (kafka_up (env w)); run_close.
  - cbv zeta. destruct (kafka_up (env w)) eqn:Hk.
    + cbn [outcome trace final]. run_open. unfold settle_call.
      cbn [env with_kafka set_producer new_producer].
      rewrite Hk. run_close.
    + reflexivity.
Qed.

(** [eachMessage], run in any world: a null value is only logged; a value
    is written to the store; when the write is refused the error is
    caught, the consumer is paused on the topic and the resume is timed. *)
Lemma run_eachMessage (w : World) (c : Handle) (p : EachMessagePayload) :
  run (eachMessage c p) w =
  match value (message p) with
  | None => mkResult [received_line p] w (Resolved tt)
  | Some b =>
      match store_script (store w) with
      | false :: _ =>
          mkResult
            [ received_line p;
              PrismaMessageCreate (toString b);
              Console Err [LStr (js "Error saving message to database:");
                           LErr PrismaError];
              Console Log [LStr (js "Pausing consumer for 1 minute...")];
              ConsumerPause c whole_topic;
              SetTimeout (ResumeCallback c) 60000 ]
            (set_timeout (ResumeCallback c) 60000
               (pause_consumer c whole_topic (store_fail w)))
            (Resolved tt)
      | _ =>
          mkResult
            [ received_line p;
              PrismaMessageCreate (toString b);
              Console Log [LStr (js "Message saved to database:");
                           LStr (toString b)] ]
            (store_write (toString b) w)
            (Resolved tt)
      end
  end.
Proof.
  unfold eachMessage. run_open. fold (received_line p).
  destruct (value (message p)) as [b|].
  - run_open. destruct (store_script (store w)) as [|[|] s]; run_open; run_close.
  - run_open. run_close.
Qed.

(** Whatever the store answers, the promise of [eachMessage] resolves:
    the error of a refused write does not leave the callback. *)
Lemma eachMessage_resolves (w : World) (c : Handle) (p : EachMessagePayload) :
  outcome (run (eachMessage c p) w) = Resolved tt.
Proof.
  rewrite run_eachMessage.
  destruct (value (message p)); [|reflexivity].
  destruct (store_script (store w)) as [|[|] s]; reflexivity.
Qed.

Lemma run_resume_callback (w : World) (c : Handle) :
  run (resume_callback c) w =
  mkResult [ Console Log [LStr (js "Resuming consumer...")];
             ConsumerResume c whole_topic ]
    (resume_consumer c whole_topic w) (Resolved tt).
Proof. unfold resume_callback. run_open. run_close. Qed.

Lemma run_startMessageConsumer (w : World) :
  run startMessageConsumer w =
  let r := run (createConsumer (js "message-consumer-group")) w in
  let hello := Console Log [LStr (js "Starting Kafka Consumer...")] in
  match outcome r with
  | Resolved c =>
      if kafka_up (env w)
      then mkResult (hello :: trace r
                       ++ [ConsumerSubscribe c MESSAGES true; ConsumerRun c])
             (run_consumer c (subscribe_consumer c MESSAGES true (final r)))
             (Resolved tt)
      else mkResult (hello :: trace r ++ [ConsumerSubscribe c MESSAGES true])
             (final r) (Rejected KafkaError)
  | Rejected e => mkResult (hello :: trace r) (final r) (Rejected e)
  end.
Proof.
  unfold startMessageConsumer. run_open. rewrite run_bind.
  rewrite run_createConsumer.
  destruct (consumer (kafka w)) as [c|] eqn:Hc.
  - cbn [outcome trace final]. run_open. unfold settle_call.
    destruct (kafka_up (env w)) eqn:Hk.
    + run_open. unfold settle_call. cbn [env subscribe_consumer with_kafka].
      rewrite Hk. run_close.
    + run_open. run_close.
  - cbv zeta. destruct (kafka_up (env w)) eqn:Hk.
    + cbn [outcome trace final]. run_open. unfold settle_call.
      cbn [env set_consumer new_consumer subscribe_consumer with_kafka].
      rewrite Hk. run_open. unfold settle_call.
      cbn [env set_consumer new_consumer subscribe_consumer with_kafka].
      rewrite Hk. run_close.
    + run_close.
Qed.

(* ================================================================= *)
(** ** What each activity leaves alone *)

Lemma settle_backend (r : Result unit) : backend (settle r) = backend (final r).
Proof. unfold settle. destruct (outcome r); reflexivity. Qed.

(** Listeners of the socket service touch neither Kafka nor the store. *)
Lemma listener_backend (l : Listener) (a : Arg) (w : World) :
  backend (settle (run (listener_prog l a) w)) = backend w.
Proof.
  rewrite settle_backend.
  destruct l, a; cbn [listener_prog]; try reflexivity.
  - rewrite run_on_event_message. cbv zeta.
    destruct (redis_up (env w)); reflexivity.
  - rewrite run_on_redis_message.
    destruct (str_eqb channel MESSAGES); [|reflexivity].
    destruct (JSON.parse message0); reflexivity.
Qed.

Lemma fold_settle_backend (a : Arg) (ls : list Listener) (w : World) :
  backend (fold_left (fun w l => settle (run (listener_prog l a) w)) ls w)
  = backend w.
Proof.
  revert w. induction ls as [|l ls IH]; intros w; cbn [fold_left].
  - reflexivity.
  - rewrite IH. apply listener_backend.
Qed.

Lemma dispatch_backend (src : Source) (event : jsstring) (a : Arg) (w : World) :
  backend (dispatch src event a w) = backend w.
Proof. unfold dispatch. apply fold_settle_backend. Qed.

Lemma client_connects_backend (s : SocketId) (w : World) :
  backend (client_connects s w) = backend w.
Proof. unfold client_connects. rewrite dispatch_backend. reflexivity. Qed.

Lemma client_emits_backend (s : SocketId) (event message : jsstring) (w : World) :
  backend (client_emits s event message w) = backend w.
Proof.
  unfold client_emits. destruct (mem_nat s (sockets (realtime w))).
  - apply dispatch_backend.
  - reflexivity.
Qed.

Lemma redis_delivers_backend (channel payload : jsstring) (w : World) :
  backend (redis_delivers channel payload w) = backend w.
Proof.
  unfold redis_delivers. destruct (mem_str channel (subscribed (realtime w))).
  - apply dispatch_backend.
  - reflexivity.
Qed.

(* ================================================================= *)
(** ** A serving instance *)

Lemma only_eq (l : Listener) (ls : list Listener) : only l ls = true -> ls = [l].
Proof.
  destruct ls as [|x [|y r]]; cbn; try discriminate.
  destruct x, l; cbn; try discriminate; reflexivity.
Qed.

Lemma serving_elim (w : World) :
  serving w ->
  mem_str MESSAGES (subscribed (realtime w)) = true /\
  listeners_for SrcIo (js "connection") w = [OnConnection] /\
  listeners_for SrcSub (js "message") w = [OnRedisMessage] /\
  forall s, In s (sockets (realtime w)) ->
            listeners_for (SrcSocket s) (js "event:message") w = [OnEventMessage].
Proof.
  unfold serving, servingb. intros H.
  apply andb_true_iff in H. destruct H as [H _].
  apply andb_true_iff in H. destruct H as [H H4].
  apply andb_true_iff in H. destruct H as [H H3].
  apply andb_true_iff in H. destruct H as [H1 H2].
  repeat split; auto using only_eq.
  intros s Hs. apply only_eq.
  rewrite forallb_forall in H4. apply H4. exact Hs.
Qed.

Lemma serving_same (w w' : World) :
  subscribed (realtime w') = subscribed (realtime w) ->
  sockets (realtime w') = sockets (realtime w) ->
  listeners (realtime w') = listeners (realtime w) ->
  serving w -> serving w'.
Proof.
  unfold serving, servingb, listeners_for. intros Hs Hk Hl.
  rewrite Hs, Hk, Hl. tauto.
Qed.

Lemma serving_publish (ch payload : jsstring) (w : World) :
  serving w -> serving (publish ch payload w).
Proof. apply serving_same; reflexivity. Qed.

Lemma serving_emit_all (event : jsstring) (data : JSON.value) (w : World) :
  serving w -> serving (emit_all event data w).
Proof. apply serving_same; reflexivity. Qed.

Lemma mem_nat_In (n : nat) (l : list nat) : In n l -> mem_nat n l = true.
Proof.
  intros H. unfold mem_nat. apply existsb_exists. exists n. split.
  - exact H.
  - apply Nat.eqb_refl.
Qed.

(** A serving instance hands a client's "event:message" to the one
    handler of that event. *)
Lemma client_emits_serving (s : SocketId) (t : jsstring) (w : World) :
  serving w -> In s (sockets (realtime w)) ->
  client_emits s (js "event:message") t w = settle (run (on_event_message t) w).
Proof.
  intros Hw Hin. apply serving_elim in Hw. destruct Hw as (_ & _ & _ & Hs).
  unfold client_emits, dispatch.
  rewrite (mem_nat_In _ _ Hin). rewrite (Hs s Hin). reflexivity.
Qed.

(** A serving instance hands what Redis delivers on the channel to the
    one subscription callback. *)
Lemma redis_delivers_serving (payload : jsstring) (w : World) :
  serving w ->
  redis_delivers MESSAGES payload w
  = settle (run (on_redis_message MESSAGES payload) w).
Proof.
  intros Hw. apply serving_elim in Hw. destruct Hw as (Hsub & _ & Hl & _).
  unfold redis_delivers, dispatch.
  rewrite Hsub, Hl. reflexivity.
Qed.

Lemma redis_delivers_chat (t : jsstring) (w : World) :
  serving w -> wf_string t ->
  redis_delivers MESSAGES (stringify (chat t)) w = emit_all (js "message") (chat t) w.
Proof.
  intros Hw Ht. rewrite redis_delivers_serving by assumption.
  rewrite run_on_redis_message.
  unfold chat. rewrite parse_stringify_one_field by (auto using wf_string_js).
  reflexivity.
Qed.

Lemma client_emits_chat (s : SocketId) (t : jsstring) (w : World) :
  serving w -> In s (sockets (realtime w)) -> redis_up (env w) = true ->
  client_emits s (js "event:message") t w = publish MESSAGES (stringify (chat t)) w.
Proof.
  intros Hw Hin Hup. rewrite client_emits_serving by assumption.
  rewrite run_on_event_message. cbv zeta. rewrite Hup. reflexivity.
Qed.

(** index.ts leaves a serving instance when Redis is up. *)
Lemma boot_serving (e : Env) (t : Z) (b : Broker) (s : Store) :
  redis_up e = true -> serving (boot (process_start e t b s)).
Proof.
  destruct e as [ru ku part]. cbn [redis_up]. intros ->.
  destruct ku; reflexivity.
Qed.

Lemma listeners_for_add (src src' : Source) (event event' : jsstring)
  (l : Listener) (w : World) :
  listeners_for src event (add_listener src' event' l w)
  = listeners_for src event w
    ++ (if source_eqb src' src && str_eqb event' event then [l] else []).
Proof.
  unfold listeners_for, add_listener. cbn [realtime with_realtime listeners].
  rewrite filter_app, map_app. cbn [filter fst snd].
  destruct (source_eqb src' src && str_eqb event' event); reflexivity.
Qed.

Lemma listeners_for_add_socket (src : Source) (event : jsstring) (s : SocketId) (w : World) :
  listeners_for src event (add_socket s w) = listeners_for src event w.
Proof. reflexivity. Qed.

Lemma mem_nat_app (n : nat) (l r : list nat) :
  mem_nat n (l ++ r) = mem_nat n l || mem_nat n r.
Proof. unfold mem_nat. apply existsb_app. Qed.

Lemma no_listener_of_stranger (s : SocketId) (event : jsstring) (w : World) :
  forallb (fun x => match fst (fst x) with
                    | SrcSocket s' => mem_nat s' (sockets (realtime w))
                    | _ => true
                    end) (listeners (realtime w)) = true ->
  mem_nat s (sockets (realtime w)) = false ->
  listeners_for (SrcSocket s) event w = [].
Proof.
  unfold listeners_for. generalize (sockets (realtime w)) as ss.
  induction (listeners (realtime w)) as [|[[src ev] l] ls IH]; intros ss Hall Hs.
  - reflexivity.
  - cbn [forallb fst] in Hall. apply andb_true_iff in Hall.
    destruct Hall as [Hx Hall].
    cbn [filter fst snd].
    destruct src as [| |s']; cbn [source_eqb andb];
      try (apply (IH ss); assumption).
    destruct (Nat.eqb_spec s' s) as [->|Hne].
    + congruence.
    + cbn [andb]. apply (IH ss); assumption.
Qed.

(** A new client leaves the instance serving. *)
Lemma client_connects_serving (s : SocketId) (w : World) :
  serving w -> mem_nat s (sockets (realtime w)) = false ->
  serving (client_connects s w).
Proof.
  intros Hw Hnew. pose proof (serving_elim _ Hw) as (Hsub & Hio & Hred & Hsock).
  unfold serving, servingb in Hw.
  apply andb_true_iff in Hw. destruct Hw as [Hw Hown].
  apply andb_true_iff in Hw. destruct Hw as [_ Hall].
  unfold client_connects, dispatch.
  rewrite listeners_for_add_socket, Hio. cbn [fold_left listener_prog].
  rewrite run_on_connection. cbn [settle outcome final].
  unfold serving, servingb.
  rewrite !listeners_for_add, !listeners_for_add_socket, Hio, Hred.
  cbn [source_eqb andb app only listener_eqb].
  replace (subscribed (realtime
             (add_listener (SrcSocket s) (js "event:message") OnEventMessage
                (add_socket s w)))) with (subscribed (realtime w)) by reflexivity.
  rewrite Hsub. cbn [andb].
  replace (sockets (realtime
             (add_listener (SrcSocket s) (js "event:message") OnEventMessage
                (add_socket s w)))) with (sockets (realtime w) ++ [s]) by reflexivity.
  replace (listeners (realtime
             (add_listener (SrcSocket s) (js "event:message") OnEventMessage
                (add_socket s w))))
    with (listeners (realtime w)
            ++ [(SrcSocket s, js "event:message", OnEventMessage)]) by reflexivity.
  rewrite !forallb_app. cbn [forallb fst andb].
  apply andb_true_iff. split; [apply andb_true_iff; split|apply andb_true_iff; split].
  - rewrite forallb_forall. intros s' Hs'.
    rewrite listeners_for_add, listeners_for_add_socket, (Hsock s' Hs').
    destruct (Nat.eqb_spec s s') as [->|Hne].
    + apply mem_nat_In in Hs'. congruence.
    + cbn. destruct (Nat.eqb_spec s s'); [contradiction|reflexivity].
  - rewrite listeners_for_add, listeners_for_add_socket.
    rewrite (no_listener_of_stranger _ _ _ Hown Hnew).
    cbn. rewrite Nat.eqb_refl. reflexivity.
  - rewrite forallb_forall in *. intros x Hx. specialize (Hown x Hx).
    destruct (fst (fst x)); try reflexivity.
    rewrite mem_nat_app, Hown. reflexivity.
  - rewrite mem_nat_app. cbn. rewrite Nat.eqb_refl.
    rewrite orb_true_r. reflexivity.
Qed.

(* ================================================================= *)
(** ** The Kafka side, step by step *)

Lemma update_nth_length {A : Type} (n : nat) (f : A -> A) (l : list A) :
  List.length (update_nth n f l) = List.length l.
Proof.
  revert n. induction l as [|x l IH]; intros [|n]; cbn; auto.
Qed.

Lemma update_nth_Forall {A : Type} (P : A -> Prop) (n : nat) (f : A -> A) (l : list A) :
  (forall x, P x -> P (f x)) -> Forall P l -> Forall P (update_nth n f l).
Proof.
  intros Hf. revert n. induction l as [|x l IH]; intros [|n] Hl; cbn;
    inversion Hl; subst; constructor; auto.
Qed.

Lemma nth_error_update_nth {A : Type} (n : nat) (f : A -> A) (l : list A) :
  nth_error (update_nth n f l) n = option_map f (nth_error l n).
Proof.
  revert n. induction l as [|x l IH]; intros [|n]; cbn; auto.
Qed.

Lemma nth_error_update_nth_other {A : Type} (n m : nat) (f : A -> A) (l : list A) :
  n <> m -> nth_error (update_nth n f l) m = nth_error l m.
Proof.
  revert n m. induction l as [|x l IH]; intros [|n] [|m] H; cbn; auto.
  contradiction.
Qed.

Lemma no_pause_running (w : World) (c : Handle) (t : jsstring) (p : Z) :
  no_pause w -> paused_at w c t p = false.
Proof.
  unfold no_pause, paused_at. intros H.
  destruct (nth_error (consumers (kafka w)) c) as [o|] eqn:Ho; [|reflexivity].
  apply nth_error_In in Ho. rewrite Forall_forall in H.
  rewrite (H o Ho). reflexivity.
Qed.

(** Resuming a consumer that holds no mark leaves it without one. *)
Lemma resume_no_pause (c : Handle) (w : World) :
  no_pause w -> no_pause (resume_consumer c whole_topic w).
Proof.
  unfold no_pause, resume_consumer. cbn [kafka with_kafka update_consumer consumers].
  apply update_nth_Forall. intros o Ho. cbn. rewrite Ho. reflexivity.
Qed.

(** What one delivery by the runner does to the Kafka side. *)
Lemma poll_facts (c : Handle) (t : jsstring) (p : Z) (w : World) :
  let w' := poll c t p w in
  store_failures (store w) <= store_failures (store w') /\
  (store_failures (store w') = store_failures (store w) -> no_pause w -> no_pause w') /\
  producer (kafka w') = producer (kafka w) /\
  consumer (kafka w') = consumer (kafka w) /\
  producers (kafka w') = producers (kafka w) /\
  List.length (consumers (kafka w')) = List.length (consumers (kafka w)).
Proof.
  unfold poll.
  destruct (nth_error (consumers (kafka w)) c) as [o|]; [|cbn; auto 10].
  destruct (subscription t (c_subscribed o)) as [fb|]; [|cbn; auto 10].
  destruct (c_running o && negb (is_paused (c_paused o) t p)); [|cbn; auto 10].
  destruct (nth_error _ _) as [r|]; [|cbn; auto 10].
  rewrite run_eachMessage. cbn [value message].
  destruct (br_value r) as [b|]; [|cbn; auto 10].
  destruct (store_script (store w)) as [|[|] s]; cbn [outcome final].
  - cbn. auto 10.
  - cbn. auto 10.
  - cbn -[Nat.le]. repeat split; auto.
    + intros H. exfalso. lia.
    + apply update_nth_length.
Qed.

Lemma fold_resume_facts (due : list (Z * Callback)) (w : World) :
  let w' := fold_left (fun w x => settle (run (callback_prog (snd x)) w)) due w in
  store (w') = store w /\
  (no_pause w -> no_pause w') /\
  producer (kafka w') = producer (kafka w) /\
  consumer (kafka w') = consumer (kafka w) /\
  producers (kafka w') = producers (kafka w) /\
  List.length (consumers (kafka w')) = List.length (consumers (kafka w)).
Proof.
  revert w. induction due as [|[d [c]] due IH]; intros w; cbn [fold_left].
  - cbn; auto 10.
  - cbn [snd callback_prog]. rewrite run_resume_callback. cbn [settle outcome final].
    specialize (IH (resume_consumer c whole_topic w)). cbv zeta in IH.
    destruct IH as (H1 & H2 & H3 & H4 & H5 & H6).
    cbv zeta. rewrite H1, H3, H4, H5, H6.
    repeat split; try reflexivity.
    + intros H. apply H2. apply resume_no_pause. exact H.
    + cbn. apply update_nth_length.
Qed.

Lemma tick_facts (ms : Z) (w : World) :
  let w' := tick ms w in
  store (w') = store w /\
  (no_pause w -> no_pause w') /\
  producer (kafka w') = producer (kafka w) /\
  consumer (kafka w') = consumer (kafka w) /\
  producers (kafka w') = producers (kafka w) /\
  List.length (consumers (kafka w')) = List.length (consumers (kafka w)).
Proof.
  unfold tick. cbv zeta.
  exact (fold_resume_facts _ (with_clock _ w)).
Qed.

Lemma produce_facts (message : jsstring) (w : World) :
  let w' := final (run (produceMessage message) w) in
  store w' = store w /\
  consumers (kafka w') = consumers (kafka w) /\
  consumer (kafka w') = consumer (kafka w) /\
  (forall p, producer (kafka w) = Some p ->
             producer (kafka w') = Some p /\ producers (kafka w') = producers (kafka w)).
Proof.
  rewrite run_produceMessage, run_createProducer.
  destruct (producer (kafka w)) as [p|] eqn:Hp.
  - cbn [outcome final trace]. destruct (kafka_up (env w)); cbn; repeat split; auto.
    all: congruence.
  - cbv zeta. destruct (kafka_up (env w)) eqn:Hk; cbn [outcome final trace].
    + cbn. repeat split; auto; intros; discriminate.
    + cbn. repeat split; auto; intros; discriminate.
Qed.

(** What one step does to the Kafka side. *)
Lemma step_facts (s : Step) (w : World) :
  let w' := step s w in
  store_failures (store w) <= store_failures (store w') /\
  (store_failures (store w') = store_failures (store w) -> no_pause w -> no_pause w') /\
  consumer (kafka w') = consumer (kafka w) /\
  (forall p, producer (kafka w) = Some p ->
             producer (kafka w') = Some p /\ producers (kafka w') = producers (kafka w)) /\
  List.length (consumers (kafka w')) = List.length (consumers (kafka w)).
Proof.
  destruct s as [c t p|ms|s|s event message|channel payload|message]; cbn [step].
  - pose proof (poll_facts c t p w) as (H1 & H2 & H3 & H4 & H5 & H6).
    cbv zeta. repeat split; auto; rewrite H3 || rewrite H5; auto.
  - pose proof (tick_facts ms w) as (H1 & H2 & H3 & H4 & H5 & H6).
    cbv zeta. rewrite H1. repeat split; auto; rewrite H3 || rewrite H5; auto.
  - pose proof (client_connects_backend s w) as H. unfold backend in H.
    injection H as _ _ Hk _ Hs. cbv zeta. unfold no_pause.
    rewrite Hk, Hs. auto 10.
  - pose proof (client_emits_backend s event message w) as H. unfold backend in H.
    injection H as _ _ Hk _ Hs. cbv zeta. unfold no_pause.
    rewrite Hk, Hs. auto 10.
  - pose proof (redis_delivers_backend channel payload w) as H. unfold backend in H.
    injection H as _ _ Hk _ Hs. cbv zeta. unfold no_pause.
    rewrite Hk, Hs. auto 10.
  - pose proof (produce_facts message w) as (H1 & H2 & H3 & H4).
    cbv zeta. unfold no_pause. rewrite H1, H2, H3. auto 10.
Qed.

(* ================================================================= *)
(** ** The Ingress Relay *)

(** C1 (the code departs from the claim): for every client message, the
    handler of "event:message" attempts exactly one side effect, the
    publication of the serialised message on the Redis channel
    "MESSAGES"; it makes no call to the Kafka producer, and serving the
    client leaves the log of the topic "MESSAGES" as it was. *)
Theorem event_message_is_not_appended (w : World) (s : SocketId) (message : jsstring) :
  let r := run (on_event_message message) w in
  filter is_publish (trace r) = [RedisPublish MESSAGES (stringify (chat message))] /\
  filter is_send (trace r) = [] /\
  broker (final r) = broker w /\
  broker (client_emits s (js "event:message") message w) = broker w.
Proof.
  cbv zeta. rewrite run_on_event_message. cbv zeta.
  pose proof (client_emits_backend s (js "event:message") message w) as H.
  injection H as _ _ _ Hb _.
  destruct (redis_up (env w)); cbn [trace final]; repeat split; auto.
Qed.

(** C6: for every client message with text [t], the payload published on
    the channel "MESSAGES" is the JSON serialisation of the object
    [{"message": t}], that is the text [{"message":] followed by the
    quoted [t] and [}], a text without lone surrogates (so that its
    UTF-8 encoding loses nothing); parsing it yields an object whose
    field "message" is [t]. *)
Theorem published_payload_carries_text (w : World) (t : jsstring) :
  wf_string t ->
  let r := run (on_event_message t) w in
  let payload := stringify (JObject [(js "message", JString t)]) in
  filter is_publish (trace r) = [RedisPublish (js "MESSAGES") payload] /\
  (redis_up (env w) = true ->
   published (realtime (final r))
   = published (realtime w) ++ [(js "MESSAGES", payload)]) /\
  payload = ([123; 34] ++ js "message" ++ [34; 58] ++ quote t ++ [125])%N /\
  well_formed payload = true /\
  exists v, JSON.parse payload = Some v /\ JSON.get v (js "message") = Some (JString t).
Proof.
  intros Ht. cbv zeta. rewrite run_on_event_message. cbv zeta.
  repeat split.
  - destruct (redis_up (env w)); reflexivity.
  - intros ->. reflexivity.
  - cbn [stringify]. rewrite app_nil_r. cbn [app js]. unfold quote at 1.
    cbn. rewrite <- !app_assoc. reflexivity.
  - apply well_formed_one_field; auto using wf_string_js.
  - exists (JObject [(js "message", JString t)]). split.
    + apply parse_stringify_one_field; auto using wf_string_js.
    + reflexivity.
Qed.

Lemma published_payload_carries_text_witness :
  wf_string (js "hello") /\
  exists v, JSON.parse (stringify (JObject [(js "message", JString (js "hello"))])) = Some v
            /\ JSON.get v (js "message") = Some (JString (js "hello")).
Proof.
  assert (Hwf : wf_string (js "hello")).
  { repeat constructor; unfold wf_unit; lia. }
  split; [exact Hwf|].
  exact (proj2 (proj2 (proj2 (proj2
           (published_payload_carries_text fresh (js "hello") Hwf))))).
Defined.

(* ================================================================= *)
(** ** The Local Broadcaster *)

(** C4, as the claim states it, fails: the payload [oops] is not JSON;
    the subscription callback logs it, emits nothing, and its promise
    rejects with the SyntaxError of JSON.parse, which the process then
    holds as an unhandled rejection. *)
Lemma malformed_payload_is_not_caught :
  outcome (run (on_redis_message MESSAGES (js "oops")) two_clients)
  = Rejected SyntaxError /\
  unhandled (redis_delivers MESSAGES (js "oops") two_clients) = [SyntaxError] /\
  received (realtime (redis_delivers MESSAGES (js "oops") two_clients)) = [].
Proof. repeat split; reflexivity. Qed.

(** C4, amended: for every raw payload delivered to the subscription
    callback on the channel "MESSAGES", a malformed payload is logged as
    received, no emission to clients occurs for it and the world is left
    as it was, but the error of JSON.parse is not caught: the promise of
    the callback rejects with it.  A well-formed payload is emitted and
    the promise resolves; a payload of another channel is ignored. *)
Theorem bus_callback_on_payload (w : World) (channel payload : jsstring) :
  let r := run (on_redis_message channel payload) w in
  (str_eqb channel MESSAGES = true -> JSON.parse payload = None ->
   trace r = [Console Log [LStr (js "New message from Redis:"); LStr payload]] /\
   filter is_emit (trace r) = [] /\
   final r = w /\
   outcome r = Rejected SyntaxError) /\
  (str_eqb channel MESSAGES = true ->
   forall data, JSON.parse payload = Some data ->
   filter is_emit (trace r) = [IoEmit (js "message") data] /\
   outcome r = Resolved tt) /\
  (str_eqb channel MESSAGES = false ->
   trace r = [] /\ final r = w /\ outcome r = Resolved tt).
Proof.
  cbv zeta. rewrite run_on_redis_message. split; [|split].
  - intros Hc Hp. rewrite Hc, Hp. cbn. auto.
  - intros Hc data Hp. rewrite Hc, Hp. cbn. auto.
  - intros Hc. rewrite Hc. cbn. auto.
Qed.

Lemma bus_callback_on_payload_witness :
  let r := run (on_redis_message MESSAGES (js "oops")) two_clients in
  trace r = [Console Log [LStr (js "New message from Redis:"); LStr (js "oops")]] /\
  filter is_emit (trace r) = [] /\
  final r = two_clients /\
  outcome r = Rejected SyntaxError.
Proof.
  apply (proj1 (bus_callback_on_payload two_clients MESSAGES (js "oops")));
    reflexivity.
Defined.

(* ================================================================= *)
(** ** The producer *)

(** C7: every append that [produceMessage] performs targets the topic
    "MESSAGES" with one message whose key is "message-" followed by the
    decimal [Date.now()] and whose value is the message; when the append
    succeeds the record is in the log and [produceMessage] returns
    [true], and it returns [true] in no other case. *)
Theorem produceMessage_appends_keyed (w : World) (message : jsstring) :
  let r := run (produceMessage message) w in
  let key := js "message-" ++ number_to_string (now (clock w)) in
  let sent := mkProducerRecord [mkProducerMessage key message] (js "MESSAGES") in
  (forall ev, In ev (trace r) -> is_send ev = true ->
              exists p, ev = ProducerSend p sent) /\
  (kafka_up (env w) = true ->
   (exists p, filter is_send (trace r) = [ProducerSend p sent]) /\
   log (broker (final r))
   = log (broker w)
       ++ [mkBrokerRecord (js "MESSAGES") (partitioner (env w) key) key
                          (Some (mkBuffer message))] /\
   outcome r = Resolved true) /\
  (outcome r = Resolved true -> kafka_up (env w) = true).
Proof.
  cbv zeta. rewrite run_produceMessage, run_createProducer.
  destruct (producer (kafka w)) as [p|] eqn:Hp; cbv zeta;
    destruct (kafka_up (env w)) eqn:Hk; cbn [outcome trace final].
  all: repeat split; try discriminate; try reflexivity.
  all: try (intros ev Hin Hs; cbn in Hin;
            repeat (destruct Hin as [<-|Hin]; try discriminate Hs;
                    try (eexists; reflexivity)); contradiction).
  all: eexists; reflexivity.
Qed.

Lemma produceMessage_appends_keyed_witness :
  let r := run (produceMessage (js "hello")) fresh in
  (exists p, filter is_send (trace r)
             = [ProducerSend p
                  (mkProducerRecord
                     [mkProducerMessage (js "message-1700000000000") (js "hello")]
                     (js "MESSAGES"))]) /\
  log (broker (final r))
  = [mkBrokerRecord (js "MESSAGES") 0 (js "message-1700000000000")
                    (Some (mkBuffer (js "hello")))] /\
  outcome r = Resolved true.
Proof.
  apply (proj1 (proj2 (produceMessage_appends_keyed fresh (js "hello")))).
  reflexivity.
Defined.

(** What any run of steps does to the Kafka side. *)
Lemma steps_facts (l : list Step) (w : World) :
  let w' := steps l w in
  store_failures (store w) <= store_failures (store w') /\
  (store_failures (store w') = store_failures (store w) -> no_pause w -> no_pause w') /\
  consumer (kafka w') = consumer (kafka w) /\
  (forall p, producer (kafka w) = Some p ->
             producer (kafka w') = Some p /\ producers (kafka w') = producers (kafka w)) /\
  List.length (consumers (kafka w')) = List.length (consumers (kafka w)).
Proof.
  revert w. induction l as [|s l IH]; intros w.
  - cbn. auto 10.
  - unfold steps. cbn [fold_left]. fold (steps l (step s w)).
    pose proof (step_facts s w) as (S1 & S2 & S3 & S4 & S5).
    pose proof (IH (step s w)) as (I1 & I2 & I3 & I4 & I5).
    cbv zeta in *. repeat split.
    + lia.
    + intros Heq Hnp. apply I2; [lia|]. apply S2; [lia|exact Hnp].
    + congruence.
    + destruct (S4 p H) as [Hp _]. destruct (I4 p Hp) as [Hq _]. exact Hq.
    + destruct (S4 p H) as [Hp Hn]. destruct (I4 p Hp) as [_ Hm]. congruence.
    + congruence.
Qed.

(* ================================================================= *)
(** ** The memoised clients *)

(** Running a call up to its first [await] and then to its end is
    running it. *)
Lemma run_to_await_run {A : Type} (p : Prog A) (w : World) :
  run p w
  = mkResult (fst (fst (run_to_await p w))
                ++ trace (run (snd (run_to_await p w)) (snd (fst (run_to_await p w)))))
             (final (run (snd (run_to_await p w)) (snd (fst (run_to_await p w)))))
             (outcome (run (snd (run_to_await p w)) (snd (fst (run_to_await p w))))).
Proof.
  revert w. induction p as [a|e|ev k IH]; intros w.
  - reflexivity.
  - reflexivity.
  - cbn [run run_to_await]. destruct (handle ev w) as [w' r].
    destruct (is_promise ev).
    + cbn [fst snd app]. reflexivity.
    + rewrite IH. destruct (run_to_await (k r) w') as [[tr w''] rest].
      cbn [fst snd app traced trace final outcome]. reflexivity.
Qed.

(** C9, as the claim states it, fails in two ways.  When a call is made
    while an earlier one still awaits its connect, the later call finds
    nothing cached: it makes and connects a client of its own and
    returns that one, so that two clients exist and the two calls return
    different ones.  And when the connect of the first call is rejected,
    nothing is cached: the next call makes and connects another client. *)
Lemma memoisation_fails :
  (let rr := overlapped (createConsumer group) (createConsumer group) fresh in
   outcome (fst rr) = Resolved 0 /\
   outcome (snd rr) = Resolved 1 /\
   filter is_kafka_client (trace (snd rr)) = [KafkaConsumer group; ConsumerConnect 1] /\
   List.length (consumers (kafka (final (snd rr)))) = 2) /\
  (let rr := overlapped createProducer createProducer fresh in
   outcome (fst rr) = Resolved 0 /\
   outcome (snd rr) = Resolved 1 /\
   filter is_kafka_client (trace (snd rr)) = [KafkaProducer; ProducerConnect 1] /\
   producers (kafka (final (snd rr))) = 2) /\
  (let r := run (createConsumer group) fresh_kafka_down in
   let r' := run (createConsumer group) (kafka_returns (final r)) in
   outcome r = Rejected KafkaError /\
   consumer (kafka (final r)) = None /\
   outcome r' = Resolved 1 /\
   filter is_kafka_client (trace r') = [KafkaConsumer group; ConsumerConnect 1]).
Proof. repeat split; reflexivity. Qed.

(** C9, amended: for calls made one at a time, each when the one before
    has settled.  When no producer is cached and the connect resolves,
    [createProducer] makes a producer, connects it and caches it; from
    then on, whatever the process does in between, every [createProducer]
    returns that same producer and neither makes nor connects a client.
    The same holds of [createConsumer], whatever group identifier the
    later calls pass. *)
Theorem clients_are_memoised (w : World) (groupId : jsstring) :
  kafka_up (env w) = true ->
  (producer (kafka w) = None ->
   let r := run createProducer w in
   exists p,
     outcome r = Resolved p /\
     filter is_kafka_client (trace r) = [KafkaProducer; ProducerConnect p] /\
     producer (kafka (final r)) = Some p /\
     forall l, let w' := steps l (final r) in
               run createProducer w' = mkResult [ReadProducer] w' (Resolved p)) /\
  (consumer (kafka w) = None ->
   let r := run (createConsumer groupId) w in
   exists c,
     outcome r = Resolved c /\
     filter is_kafka_client (trace r) = [KafkaConsumer groupId; ConsumerConnect c] /\
     consumer (kafka (final r)) = Some c /\
     forall l groupId',
       let w' := steps l (final r) in
       run (createConsumer groupId') w' = mkResult [ReadConsumer] w' (Resolved c)).
Proof.
  intros Hup. split.
  - intros Hnone. cbv zeta. rewrite run_createProducer, Hnone. cbv zeta. rewrite Hup.
    exists (producers (kafka w)). cbn [outcome trace final]. repeat split.
    intros l. rewrite run_createProducer.
    pose proof (steps_facts l (set_producer (producers (kafka w)) (new_producer w)))
      as (_ & _ & _ & H & _).
    destruct (H (producers (kafka w)) eq_refl) as [-> _]. reflexivity.
  - intros Hnone. cbv zeta. rewrite run_createConsumer, Hnone. cbv zeta. rewrite Hup.
    exists (List.length (consumers (kafka w))). cbn [outcome trace final]. repeat split.
    intros l g'. rewrite run_createConsumer.
    pose proof (steps_facts l
                  (set_consumer (List.length (consumers (kafka w)))
                     (new_consumer groupId w)))
      as (_ & _ & -> & _). reflexivity.
Qed.

Lemma clients_are_memoised_witness :
  let r := run (createConsumer group) fresh in
  exists c,
    outcome r = Resolved c /\
    filter is_kafka_client (trace r) = [KafkaConsumer group; ConsumerConnect c] /\
    consumer (kafka (final r)) = Some c /\
    forall l groupId',
      let w' := steps l (final r) in
      run (createConsumer groupId') w' = mkResult [ReadConsumer] w' (Resolved c).
Proof.
  apply (proj2 (clients_are_memoised fresh group eq_refl)). reflexivity.
Defined.

(* ================================================================= *)
(** ** Records without a value *)

(** C10, as the claim states it, fails on an empty value: the value of
    the record is an empty buffer, an object, so the guard lets it
    through and the empty text is written to the store. *)
Lemma empty_value_is_written :
  value (message empty_valued) = Some (mkBuffer []) /\
  filter is_store_write (trace (run (eachMessage 0 empty_valued) fresh))
  = [PrismaMessageCreate []] /\
  rows (store (final (run (eachMessage 0 empty_valued) fresh))) = [[]].
Proof. repeat split; reflexivity. Qed.

(** C10, amended: for every record of the log whose value is null, the
    consumer performs no store write, raises no error and issues no
    pause: the callback only logs the record and resolves, leaving the
    world as it was; the runner then commits the offset of the record, so
    that the consumer stays as it is and goes on with the next one. *)
Theorem null_value_is_skipped (w : World) (c : Handle) (o : ConsumerObj)
  (t : jsstring) (p : Z) (fb : bool) (rec : BrokerRecord) :
  nth_error (consumers (kafka w)) c = Some o ->
  subscription t (c_subscribed o) = Some fb ->
  c_running o = true ->
  is_paused (c_paused o) t p = false ->
  nth_error (partition_log t p (log (broker w)))
            (next_offset w (c_groupId o) t p fb) = Some rec ->
  br_value rec = None ->
  let n := next_offset w (c_groupId o) t p fb in
  let r := run (eachMessage c (mkPayload t p (mkKafkaMessage n None))) w in
  filter is_store_write (trace r) = [] /\
  filter is_pause (trace r) = [] /\
  outcome r = Resolved tt /\
  final r = w /\
  poll c t p w = commit (c_groupId o) t p (S n) w.
Proof.
  intros Ho Hsub Hrun Hp Hrec Hnull. cbv zeta.
  unfold poll. rewrite Ho, Hsub, Hrun, Hp, Hrec, Hnull. cbn [andb negb].
  rewrite run_eachMessage. cbn [value message outcome final trace].
  repeat split; reflexivity.
Qed.

Lemma null_value_is_skipped_witness :
  let r := run (eachMessage 0 (mkPayload MESSAGES 0 (mkKafkaMessage 0 None)))
               with_tombstone in
  filter is_store_write (trace r) = [] /\
  filter is_pause (trace r) = [] /\
  outcome r = Resolved tt /\
  final r = with_tombstone /\
  poll 0 MESSAGES 0 with_tombstone = commit group MESSAGES 0 1 with_tombstone.
Proof.
  apply (null_value_is_skipped with_tombstone 0 the_consumer MESSAGES 0 true tombstone);
    reflexivity.
Defined.

(* ================================================================= *)
(** ** The pause *)

Lemma str_eqb_refl (a : jsstring) : str_eqb a a = true.
Proof.
  induction a as [|x a IH]; cbn; [reflexivity|].
  rewrite N.eqb_refl. exact IH.
Qed.

Lemma str_eqb_eq (a b : jsstring) : str_eqb a b = true -> a = b.
Proof.
  revert b. induction a as [|x a IH]; intros [|y b]; cbn; try discriminate.
  - reflexivity.
  - intros H. apply andb_true_iff in H. destruct H as [Hx Hr].
    apply N.eqb_eq in Hx. rewrite Hx, (IH b Hr). reflexivity.
Qed.

Lemma mark_of_set_mark (t : jsstring) (m : PauseMark) (ps : list (jsstring * PauseMark)) :
  mark_of t (set_mark t m ps) = Some m.
Proof.
  induction ps as [|[k m'] ps IH]; cbn.
  - rewrite str_eqb_refl. reflexivity.
  - destruct (str_eqb k t) eqn:Hk; cbn; rewrite Hk; auto.
Qed.

Lemma mark_of_set_mark_other (t t' : jsstring) (m : PauseMark)
  (ps : list (jsstring * PauseMark)) :
  str_eqb t' t = false -> mark_of t (set_mark t' m ps) = mark_of t ps.
Proof.
  intros Hne. induction ps as [|[k m'] ps IH]; cbn.
  - rewrite Hne. reflexivity.
  - destruct (str_eqb k t') eqn:Hk; cbn.
    + apply str_eqb_eq in Hk. subst k. rewrite Hne. reflexivity.
    + destruct (str_eqb k t); auto.
Qed.

(** The pause of [eachMessage] marks every partition of the topic, and
    nothing else. *)
Lemma pause_whole_topic (w : World) (c : Handle) (o : ConsumerObj) :
  nth_error (consumers (kafka w)) c = Some o ->
  let w' := pause_consumer c whole_topic w in
  (forall q, paused_at w' c MESSAGES q = true) /\
  (forall t q, str_eqb MESSAGES t = false -> paused_at w' c t q = paused_at w c t q) /\
  (forall c' t q, c' <> c -> paused_at w' c' t q = paused_at w c' t q).
Proof.
  intros Ho. cbv zeta. unfold paused_at, pause_consumer.
  cbn [kafka with_kafka update_consumer consumers]. repeat split.
  - intros q. rewrite nth_error_update_nth, Ho. cbn [option_map].
    unfold is_paused. cbn [set_paused c_paused whole_topic fold_left pause_one
                             tp_topic tp_partitions].
    rewrite mark_of_set_mark. reflexivity.
  - intros t q Ht. rewrite nth_error_update_nth, Ho. cbn [option_map].
    unfold is_paused. cbn [set_paused c_paused whole_topic fold_left pause_one
                             tp_topic tp_partitions].
    rewrite mark_of_set_mark_other by exact Ht. reflexivity.
  - intros c' t q Hc. rewrite nth_error_update_nth_other by auto. reflexivity.
Qed.

(** C3, as the claim states it, fails: the write of "x", a record of
    partition 0, is refused; the pause directive that [eachMessage]
    issues names the topic without partitions, and the consumer, which
    was not paused on partition 1 before, is paused on partition 1 after. *)
Lemma pause_covers_other_partition :
  let r := run (eachMessage 0 (mkPayload MESSAGES 0
                                 (mkKafkaMessage 0 (Some (mkBuffer (js "x"))))))
               failing_once in
  filter is_pause (trace r) = [ConsumerPause 0 [mkTopicPartitions MESSAGES None]] /\
  paused_at failing_once 0 MESSAGES 1 = false /\
  paused_at (final r) 0 MESSAGES 1 = true.
Proof. repeat split; reflexivity. Qed.

(** C3, amended: when a store write fails for a message of one
    partition, the pause directive issued to the log client names the
    topic "MESSAGES" without partitions, so the pause state of the
    consumer covers every partition of "MESSAGES", not that of the
    message alone; the pause state of other topics and of other
    consumers is left as it was. *)
Theorem store_failure_pauses_whole_topic (w : World) (c : Handle) (o : ConsumerObj)
  (p : EachMessagePayload) (b : Buffer) (s : list bool) :
  nth_error (consumers (kafka w)) c = Some o ->
  value (message p) = Some b ->
  store_script (store w) = false :: s ->
  let r := run (eachMessage c p) w in
  filter is_pause (trace r)
  = [ConsumerPause c [mkTopicPartitions (js "MESSAGES") None]] /\
  (forall q, paused_at (final r) c (js "MESSAGES") q = true) /\
  (forall t q, str_eqb (js "MESSAGES") t = false ->
               paused_at (final r) c t q = paused_at w c t q) /\
  (forall c' t q, c' <> c -> paused_at (final r) c' t q = paused_at w c' t q).
Proof.
  intros Ho Hv Hs. cbv zeta. rewrite run_eachMessage, Hv, Hs.
  cbn [trace final]. split; [reflexivity|].
  exact (pause_whole_topic (store_fail w) c o Ho).
Qed.

Lemma store_failure_pauses_whole_topic_witness :
  let r := run (eachMessage 0 (mkPayload MESSAGES 0
                                 (mkKafkaMessage 0 (Some (mkBuffer (js "x"))))))
               failing_once in
  filter is_pause (trace r)
  = [ConsumerPause 0 [mkTopicPartitions (js "MESSAGES") None]] /\
  (forall q, paused_at (final r) 0 (js "MESSAGES") q = true) /\
  (forall t q, str_eqb (js "MESSAGES") t = false ->
               paused_at (final r) 0 t q = paused_at failing_once 0 t q) /\
  (forall c' t q, c' <> 0 -> paused_at (final r) c' t q = paused_at failing_once c' t q).
Proof.
  apply (store_failure_pauses_whole_topic failing_once 0 the_consumer
           (mkPayload MESSAGES 0 (mkKafkaMessage 0 (Some (mkBuffer (js "x")))))
           (mkBuffer (js "x")) []); reflexivity.
Defined.

(* ================================================================= *)
(** ** A refused write *)

(** The runner and a refused write, in any world: [eachMessage] catches
    the error and resolves, so the runner commits the offset of the
    record that was not written. *)
Lemma poll_refused_write (w : World) (c : Handle) (o : ConsumerObj)
  (t : jsstring) (p : Z) (fb : bool) (rec : BrokerRecord) (b : Buffer) (s : list bool) :
  nth_error (consumers (kafka w)) c = Some o ->
  subscription t (c_subscribed o) = Some fb ->
  c_running o = true ->
  is_paused (c_paused o) t p = false ->
  nth_error (partition_log t p (log (broker w)))
            (next_offset w (c_groupId o) t p fb) = Some rec ->
  br_value rec = Some b ->
  store_script (store w) = false :: s ->
  let n := next_offset w (c_groupId o) t p fb in
  let w' := poll c t p w in
  outcome (run (eachMessage c (mkPayload t p (mkKafkaMessage n (Some b)))) w)
  = Resolved tt /\
  rows (store w') = rows (store w) /\
  cursor_get (c_groupId o) t p (cursor (broker w')) = Some (S n).
Proof.
  intros Ho Hsub Hrun Hp Hrec Hb Hs. cbv zeta.
  unfold poll. rewrite Ho, Hsub, Hrun, Hp, Hrec, Hb. cbn [andb negb].
  rewrite run_eachMessage. cbn [value message]. rewrite Hs.
  cbn [outcome final]. repeat split.
  cbn. generalize (cursor (broker w)) as cs.
  induction cs as [|[[[g' t'] p'] n'] cs IH]; cbn.
  - rewrite !str_eqb_refl, Z.eqb_refl. reflexivity.
  - destruct (str_eqb g' (c_groupId o) && str_eqb t' t && (p' =? p)%Z) eqn:Hk;
      cbn; rewrite Hk; auto.
Qed.

Lemma later_is_stable (t : Z) :
  minute_and_poll (later t) = later (t + 60000).
Proof. reflexivity. Qed.

Lemma later_forever (k : nat) :
  forall t, exists t', Nat.iter k minute_and_poll (later t) = later t'.
Proof.
  induction k as [|k IH]; intros t.
  - exists t. reflexivity.
  - destruct (IH t) as [t' Ht']. exists (t' + 60000)%Z.
    rewrite Nat.iter_succ, Ht'. apply later_is_stable.
Qed.

(** C2 (the code departs from the claim): the log holds "x" then "y" on
    partition 0 and the store refuses one write.  When "x" is delivered
    the write fails, the consumer is paused, and the offset of "x" is
    committed all the same: the cursor is at 1.  When the pause has
    elapsed the consumer is resumed and the record delivered is "y", not
    "x"; the cursor is then at 2, past both, and however long the
    consumer goes on the store holds "y" alone: "x" is skipped for good. *)
Theorem refused_write_is_skipped :
  let w1 := poll 0 MESSAGES 0 failing_once in
  let w2 := poll 0 MESSAGES 0 (tick 60000 w1) in
  (rows (store w1) = [] /\ store_failures (store w1) = 1 /\
   paused_at w1 0 MESSAGES 0 = true /\
   cursor_get group MESSAGES 0 (cursor (broker w1)) = Some 1) /\
  (poll 0 MESSAGES 0 w1 = w1 /\ paused_at (tick 60000 w1) 0 MESSAGES 0 = false) /\
  (rows (store w2) = [js "y"] /\
   cursor_get group MESSAGES 0 (cursor (broker w2)) = Some 2) /\
  forall k, rows (store (Nat.iter k minute_and_poll w2)) = [js "y"].
Proof.
  cbv zeta. repeat split.
  intros k. change (poll 0 MESSAGES 0 (tick 60000 (poll 0 MESSAGES 0 failing_once)))
    with (later 1700000060000).
  destruct (later_forever k 1700000060000) as [t' ->]. reflexivity.
Qed.

(* ================================================================= *)
(** ** The start of the process *)

(** A started process, after index.ts has run: no consumer holds a pause
    mark, no timer is set, and the store is as the last run left it. *)
Lemma boot_restart (w : World) :
  no_pause (boot (restart w)) /\
  timers (clock (boot (restart w))) = [] /\
  store (boot (restart w)) = store w.
Proof.
  unfold restart, process_start.
  destruct (env w) as [ru ku part].
  destruct ru, ku; cbn; repeat split; repeat constructor.
Qed.

(** C8: on every start of the process, whatever state the previous run
    was in, the Persistence Consumer begins Running on every partition,
    with no resume pending; and whatever the process then does, it is
    still Running as long as no store write has failed since the start. *)
Theorem consumer_starts_running (w : World) (l : list Step) :
  let w0 := boot (restart w) in
  (forall c t p, pause_state w0 c t p = Running) /\
  timers (clock w0) = [] /\
  (store_failures (store (steps l w0)) = store_failures (store w) ->
   forall c t p, pause_state (steps l w0) c t p = Running).
Proof.
  cbv zeta. destruct (boot_restart w) as (Hnp & Ht & Hs).
  repeat split.
  - intros c t p. unfold pause_state. rewrite no_pause_running by exact Hnp.
    reflexivity.
  - exact Ht.
  - intros Hf c t p. unfold pause_state.
    pose proof (steps_facts l (boot (restart w))) as (_ & H & _).
    cbv zeta in H. rewrite Hs in H.
    rewrite no_pause_running by (apply H; assumption). reflexivity.
Qed.

Lemma consumer_starts_running_witness :
  let w0 := boot (restart (poll 0 MESSAGES 0 failing_once)) in
  let l := [StepPoll 0 MESSAGES 0; StepTick 60000; StepPoll 0 MESSAGES 1] in
  paused_at (poll 0 MESSAGES 0 failing_once) 0 MESSAGES 0 = true /\
  forall c t p, pause_state (steps l w0) c t p = Running.
Proof.
  split; [reflexivity|].
  apply (proj2 (proj2 (consumer_starts_running (poll 0 MESSAGES 0 failing_once)
                         [StepPoll 0 MESSAGES 0; StepTick 60000; StepPoll 0 MESSAGES 1]))).
  reflexivity.
Defined.

(* ================================================================= *)
(** ** Fan-out *)

Lemma skipn_all_app {A : Type} (l r : list A) : skipn (List.length l) (l ++ r) = r.
Proof. induction l as [|x l IH]; cbn; auto. Qed.

(** What one client message does to a cluster of serving instances: the
    instance that serves the client publishes, and Redis delivers to all. *)
Lemma cluster_client_emits_chat (cl : list World) (i : nat) (w : World)
  (s : SocketId) (t : jsstring) :
  nth_error cl i = Some w -> serving w ->
  In s (sockets (realtime w)) -> redis_up (env w) = true ->
  cluster_client_emits i s t cl
  = map (redis_delivers MESSAGES (stringify (chat t)))
        (update_nth i (fun _ => publish MESSAGES (stringify (chat t)) w) cl).
Proof.
  intros Hi Hw Hs Hup. unfold cluster_client_emits. rewrite Hi.
  rewrite client_emits_chat by assumption.
  cbn [publish realtime with_realtime published]. rewrite skipn_all_app.
  reflexivity.
Qed.

(** C5: for every client message [t] that an instance of a cluster of
    serving instances takes in, each instance, the originating one
    included, receives the message from Redis and emits it once to every
    client connected to it, the sender included.  Serving the client
    emits nothing by itself (there is no local echo), and a payload that
    Redis delivers is emitted to all the clients of the instance
    whatever the instance has emitted before (there is no deduplication). *)
Theorem bus_reaches_every_client (cl : list World) (i : nat) (w : World)
  (s : SocketId) (t : jsstring) :
  Forall serving cl ->
  nth_error cl i = Some w ->
  In s (sockets (realtime w)) ->
  redis_up (env w) = true ->
  wf_string t ->
  let data := JObject [(js "message", JString t)] in
  (forall j wj, nth_error cl j = Some wj ->
     exists wj', nth_error (cluster_client_emits i s t cl) j = Some wj' /\
                 received (realtime wj')
                 = received (realtime wj)
                     ++ map (fun s' => (s', js "message", data)) (sockets (realtime wj))) /\
  received (realtime (client_emits s (js "event:message") t w)) = received (realtime w) /\
  (forall w', serving w' ->
     received (realtime (redis_delivers (js "MESSAGES") (stringify data) w'))
     = received (realtime w')
         ++ map (fun s' => (s', js "message", data)) (sockets (realtime w'))).
Proof.
  intros Hall Hi Hs Hup Ht. cbv zeta.
  assert (Hw : serving w).
  { rewrite Forall_forall in Hall. apply Hall. eapply nth_error_In. exact Hi. }
  repeat split.
  - intros j wj Hj.
    rewrite (cluster_client_emits_chat cl i w s t) by assumption.
    rewrite nth_error_map.
    destruct (Nat.eq_dec i j) as [<-|Hne].
    + rewrite nth_error_update_nth, Hi. cbn [option_map].
      eexists. split; [reflexivity|].
      rewrite redis_delivers_chat by (auto using serving_publish).
      assert (wj = w) by congruence. subst wj. reflexivity.
    + rewrite nth_error_update_nth_other by exact Hne. rewrite Hj. cbn [option_map].
      eexists. split; [reflexivity|].
      rewrite redis_delivers_chat; [reflexivity| |exact Ht].
      rewrite Forall_forall in Hall. apply Hall. eapply nth_error_In. exact Hj.
  - rewrite client_emits_chat by assumption. reflexivity.
  - intros w' Hw'. fold (chat t). change (js "MESSAGES") with MESSAGES.
    rewrite redis_delivers_chat by assumption. reflexivity.
Qed.

Lemma bus_reaches_every_client_witness :
  let data := JObject [(js "message", JString (js "hello"))] in
  let cl' := cluster_client_emits 0 7 (js "hello") [two_clients; one_client] in
  (exists a, nth_error cl' 0 = Some a /\
             received (realtime a) = [(7, js "message", data); (8, js "message", data)]) /\
  (exists b, nth_error cl' 1 = Some b /\
             received (realtime b) = [(3, js "message", data)]).
Proof.
  assert (Hwf : wf_string (js "hello")).
  { repeat constructor; unfold wf_unit; lia. }
  assert (Hall : Forall serving [two_clients; one_client]).
  { repeat constructor; reflexivity. }
  assert (Hin : In 7 (sockets (realtime two_clients))).
  { simpl. left. reflexivity. }
  pose proof (bus_reaches_every_client [two_clients; one_client] 0 two_clients 7
                (js "hello") Hall eq_refl Hin eq_refl Hwf) as H.
  cbv zeta in H. destruct H as (H & _ & _). split.
  - exact (H 0 two_clients eq_refl).
  - exact (H 1 one_client eq_refl).
Defined.

(* ================================================================= *)
(** ** The clients when Kafka is unreachable *)

(** X1: a connect that is rejected is not memoised.  [createConsumer]
    (and likewise [createProducer]) then rejects and leaves the module
    variable null, although a client object has been made; the next call,
    with Kafka reachable again, makes and connects a second client and
    caches that one. *)
Theorem failed_connect_is_not_cached (w : World) (groupId groupId' : jsstring) :
  kafka_up (env w) = false ->
  (consumer (kafka w) = None ->
   let r := run (createConsumer groupId) w in
   let r' := run (createConsumer groupId') (kafka_returns (final r)) in
   outcome r = Rejected KafkaError /\
   consumer (kafka (final r)) = None /\
   List.length (consumers (kafka (final r))) = S (List.length (consumers (kafka w))) /\
   outcome r' = Resolved (S (List.length (consumers (kafka w)))) /\
   filter is_kafka_client (trace r')
   = [KafkaConsumer groupId'; ConsumerConnect (S (List.length (consumers (kafka w))))] /\
   consumer (kafka (final r')) = Some (S (List.length (consumers (kafka w))))) /\
  (producer (kafka w) = None ->
   let r := run createProducer w in
   let r' := run createProducer (kafka_returns (final r)) in
   outcome r = Rejected KafkaError /\
   producer (kafka (final r)) = None /\
   producers (kafka (final r)) = S (producers (kafka w)) /\
   outcome r' = Resolved (S (producers (kafka w))) /\
   filter is_kafka_client (trace r')
   = [KafkaProducer; ProducerConnect (S (producers (kafka w)))] /\
   producer (kafka (final r')) = Some (S (producers (kafka w)))).
Proof.
  intros Hdown. split; intros Hnone; cbv zeta.
  - rewrite (run_createConsumer w), Hnone. cbv zeta. rewrite Hdown.
    cbn [outcome final trace]. rewrite run_createConsumer.
    cbn [kafka_returns with_env kafka env kafka_up new_consumer with_kafka consumer
         consumers].
    rewrite Hnone. cbv zeta. cbn [outcome final trace filter is_kafka_client].
    rewrite !length_app. cbn [List.length].
    replace (List.length (consumers (kafka w)) + 1) with (S (List.length (consumers (kafka w))))
      by lia.
    repeat split; reflexivity.
  - rewrite (run_createProducer w), Hnone. cbv zeta. rewrite Hdown.
    cbn [outcome final trace]. rewrite run_createProducer.
    cbn [kafka_returns with_env kafka env kafka_up new_producer with_kafka producer
         producers].
    rewrite Hnone. cbv zeta. cbn [outcome final trace filter is_kafka_client].
    repeat split; reflexivity.
Qed.

Lemma failed_connect_is_not_cached_witness :
  let r := run (createConsumer group) fresh_kafka_down in
  let r' := run (createConsumer group) (kafka_returns (final r)) in
  outcome r = Rejected KafkaError /\
  consumer (kafka (final r)) = None /\
  List.length (consumers (kafka (final r))) = 1 /\
  outcome r' = Resolved 1 /\
  filter is_kafka_client (trace r') = [KafkaConsumer group; ConsumerConnect 1] /\
  consumer (kafka (final r')) = Some 1.
Proof.
  apply (proj1 (failed_connect_is_not_cached fresh_kafka_down group group eq_refl)).
  reflexivity.
Defined.

(* ================================================================= *)
(** ** Producing again and again *)

Lemma fold_resume_frame (due : list (Z * Callback)) (w : World) :
  let w' := fold_left (fun w x => settle (run (callback_prog (snd x)) w)) due w in
  env w' = env w /\ clock w' = clock w /\ broker w' = broker w /\
  realtime w' = realtime w /\ unhandled w' = unhandled w.
Proof.
  revert w. induction due as [|[d [c]] due IH]; intros w; cbn [fold_left].
  - cbn; auto.
  - cbn [snd callback_prog]. rewrite run_resume_callback. cbn [settle outcome final].
    specialize (IH (resume_consumer c whole_topic w)). cbv zeta in IH.
    destruct IH as (H1 & H2 & H3 & H4 & H5).
    cbv zeta. rewrite H1, H2, H3, H4, H5. repeat split; reflexivity.
Qed.


(** One call of [produceMessage] with Kafka reachable. *)
Lemma produce_step (message : jsstring) (w : World) :
  kafka_up (env w) = true ->
  let w' := final (run (produceMessage message) w) in
  let key := js "message-" ++ number_to_string (now (clock w)) in
  env w' = env w /\ clock w' = clock w /\
  log (broker w')
  = log (broker w)
      ++ [mkBrokerRecord MESSAGES (partitioner (env w) key) key (Some (mkBuffer message))] /\
  producer (kafka w') <> None /\
  producers (kafka w')
  = producers (kafka w) + match producer (kafka w) with None => 1 | Some _ => 0 end.
Proof.
  intros Hup. cbv zeta. rewrite run_produceMessage, run_createProducer.
  destruct (producer (kafka w)) as [p|] eqn:Hp; cbv zeta; rewrite Hup;
    cbn [outcome final trace]; cbn; rewrite ?Hp; repeat split;
    try discriminate; try lia.
Qed.




(* ================================================================= *)
(** ** Numbers in text *)

Lemma uint_digits_inj (u v : Decimal.uint) : uint_digits u = uint_digits v -> u = v.
Proof.
  revert v. induction u; destruct v; cbn; intros H;
    try discriminate; try reflexivity; injection H as H; f_equal; auto.
Qed.

Lemma uint_digits_no_minus (u : Decimal.uint) (r : jsstring) :
  uint_digits u <> 45%N :: r.
Proof. destruct u; cbn; discriminate. Qed.

(** Different integers are written differently. *)
Lemma number_to_string_inj (a b : Z) :
  number_to_string a = number_to_string b -> a = b.
Proof.
  unfold number_to_string. intros H.
  rewrite <- (DecimalZ.of_to a), <- (DecimalZ.of_to b).
  destruct (Z.to_int a) as [u|u], (Z.to_int b) as [v|v].
  - apply uint_digits_inj in H. subst. reflexivity.
  - exfalso. exact (uint_digits_no_minus _ _ H).
  - exfalso. symmetry in H. exact (uint_digits_no_minus _ _ H).
  - injection H as H. apply uint_digits_inj in H. subst. reflexivity.
Qed.

Lemma sent_keys_produceMessage (w : World) (message : jsstring) :
  kafka_up (env w) = true ->
  sent_keys (trace (run (produceMessage message) w))
  = [js "message-" ++ number_to_string (now (clock w))].
Proof.
  intros Hup. rewrite run_produceMessage, run_createProducer.
  destruct (producer (kafka w)); cbv zeta; rewrite Hup; reflexivity.
Qed.

(** X3: the key that [produceMessage] gives a message depends on the
    time of the call alone: two calls send the same key exactly when
    [Date.now()] is the same for both, whatever the two messages are. *)
Theorem keys_follow_the_clock (w1 w2 : World) (m1 m2 : jsstring) :
  kafka_up (env w1) = true -> kafka_up (env w2) = true ->
  (sent_keys (trace (run (produceMessage m1) w1))
   = sent_keys (trace (run (produceMessage m2) w2))
   <-> now (clock w1) = now (clock w2)).
Proof.
  intros H1 H2. rewrite !sent_keys_produceMessage by assumption. split.
  - intros H. injection H as H.
    apply number_to_string_inj. exact H.
  - intros ->. reflexivity.
Qed.

Lemma keys_follow_the_clock_witness :
  sent_keys (trace (run (produceMessage (js "a")) fresh))
  = sent_keys (trace (run (produceMessage (js "b")) fresh)).
Proof.
  apply (proj2 (keys_follow_the_clock fresh fresh (js "a") (js "b") eq_refl eq_refl)).
  reflexivity.
Defined.

(* ================================================================= *)
(** ** Writes that the store accepts *)

Lemma cursor_get_set (g t : jsstring) (p : Z) (n : nat)
  (cs : list (jsstring * jsstring * Z * nat)) :
  cursor_get g t p (cursor_set g t p n cs) = Some n.
Proof.
  induction cs as [|[[[g' t'] p'] n'] cs IH]; cbn.
  - rewrite !str_eqb_refl, Z.eqb_refl. reflexivity.
  - destruct (str_eqb g' g && str_eqb t' t && (p' =? p)%Z) eqn:Hk;
      cbn; rewrite Hk; auto.
Qed.

Lemma skipn_nth_error {A : Type} (l : list A) (n : nat) (x : A) :
  nth_error l n = Some x -> skipn n l = x :: skipn (S n) l.
Proof.
  revert n. induction l as [|y l IH]; intros [|n] H; cbn in *; try discriminate.
  - injection H as ->. reflexivity.
  - apply IH. exact H.
Qed.

Lemma skipn_nth_error_none {A : Type} (l : list A) (n : nat) :
  nth_error l n = None -> skipn n l = [].
Proof. intros H. apply skipn_all2. apply nth_error_None. exact H. Qed.

(** One delivery by the runner when the store accepts. *)
Lemma poll_accepted (w : World) (c : Handle) (o : ConsumerObj)
  (t : jsstring) (p : Z) (fb : bool) :
  nth_error (consumers (kafka w)) c = Some o ->
  subscription t (c_subscribed o) = Some fb ->
  c_running o = true ->
  is_paused (c_paused o) t p = false ->
  accepting w ->
  let n := next_offset w (c_groupId o) t p fb in
  let w' := poll c t p w in
  kafka w' = kafka w /\ log (broker w') = log (broker w) /\ accepting w' /\
  store_failures (store w') = store_failures (store w) /\
  clock w' = clock w /\
  match nth_error (partition_log t p (log (broker w))) n with
  | Some r => rows (store w') = rows (store w) ++ text_of r /\
              next_offset w' (c_groupId o) t p fb = S n
  | None => w' = w
  end.
Proof.
  intros Ho Hsub Hrun Hp Hacc. cbv zeta.
  unfold poll. rewrite Ho, Hsub, Hrun, Hp. cbn [andb negb].
  destruct (nth_error (partition_log t p (log (broker w)))
              (next_offset w (c_groupId o) t p fb)) as [r|] eqn:Hr; [|auto 10].
  rewrite run_eachMessage. cbn [value message]. unfold text_of.
  unfold accepting in *.
  destruct (br_value r) as [b|].
  - destruct (store_script (store w)) as [|[|] s] eqn:Hs; cbn [outcome final].
    + unfold next_offset. cbn. rewrite cursor_get_set, Hs, app_nil_r || rewrite cursor_get_set, Hs.
      repeat split; auto.
    + unfold next_offset. cbn. rewrite cursor_get_set, Hs.
      inversion Hacc; subst. repeat split; auto.
    + inversion Hacc; subst. discriminate.
  - cbn [outcome final]. unfold next_offset. cbn. rewrite cursor_get_set, app_nil_r.
    repeat split; auto.
Qed.

(** X5: while the store accepts its writes, the records of a partition
    reach the store in the order of the log, from the offset of the group
    on, one per delivery and once each; a record whose value is null adds
    nothing, and when the partition is used up further deliveries change
    nothing.  No write fails and the consumer is never paused. *)
Theorem accepted_records_are_stored_in_order (k : nat) (w : World) (c : Handle)
  (o : ConsumerObj) (t : jsstring) (p : Z) (fb : bool) :
  nth_error (consumers (kafka w)) c = Some o ->
  subscription t (c_subscribed o) = Some fb ->
  c_running o = true ->
  is_paused (c_paused o) t p = false ->
  accepting w ->
  let n := next_offset w (c_groupId o) t p fb in
  let pending := skipn n (partition_log t p (log (broker w))) in
  let w' := Nat.iter k (poll c t p) w in
  rows (store w') = rows (store w) ++ flat_map text_of (firstn k pending) /\
  next_offset w' (c_groupId o) t p fb = n + Nat.min k (List.length pending) /\
  store_failures (store w') = store_failures (store w) /\
  paused_at w' c t p = false.
Proof.
  revert w. induction k as [|k IH]; intros w Ho Hsub Hrun Hp Hacc; cbv zeta.
  - cbn. rewrite app_nil_r, Nat.add_0_r. repeat split.
    unfold paused_at. rewrite Ho. exact Hp.
  - rewrite Nat.iter_succ_r.
    pose proof (poll_accepted w c o t p fb Ho Hsub Hrun Hp Hacc)
      as (Hk & Hl & Hacc' & Hf & _ & Hstep).
    cbv zeta in Hk, Hl, Hacc', Hf, Hstep.
    destruct (nth_error (partition_log t p (log (broker w)))
                (next_offset w (c_groupId o) t p fb)) as [r|] eqn:Hr.
    + destruct Hstep as [Hrows Hnext].
      assert (Ho' : nth_error (consumers (kafka (poll c t p w))) c = Some o)
        by (rewrite Hk; exact Ho).
      destruct (IH (poll c t p w) Ho' Hsub Hrun Hp Hacc') as (I1 & I2 & I3 & I4).
      rewrite I1, I2, I3, Hrows, Hnext, Hl, Hf.
      rewrite (skipn_nth_error _ _ _ Hr). cbn [firstn flat_map List.length].
      rewrite <- app_assoc. repeat split; auto; lia.
    + rewrite Hstep.
      destruct (IH w Ho Hsub Hrun Hp Hacc) as (I1 & I2 & I3 & I4).
      rewrite I1, I2, I3. rewrite (skipn_nth_error_none _ _ Hr).
      rewrite !firstn_nil. cbn [List.length]. rewrite !Nat.min_0_r.
      repeat split; auto.
Qed.

Lemma accepted_records_are_stored_in_order_witness :
  rows (store (Nat.iter 5 (poll 0 MESSAGES 0) three_records)) = [js "x"; js "y"] /\
  next_offset (Nat.iter 5 (poll 0 MESSAGES 0) three_records) group MESSAGES 0 true = 2 /\
  store_failures (store (Nat.iter 5 (poll 0 MESSAGES 0) three_records)) = 0 /\
  paused_at (Nat.iter 5 (poll 0 MESSAGES 0) three_records) 0 MESSAGES 0 = false.
Proof.
  assert (Hacc : accepting three_records) by (repeat constructor).
  exact (accepted_records_are_stored_in_order 5 three_records 0 the_consumer
           MESSAGES 0 true eq_refl eq_refl eq_refl eq_refl Hacc).
Defined.

(* ================================================================= *)
(** ** How long a pause lasts *)

Lemma paused_at_resume_same (c : Handle) (w : World) (q : Z) :
  paused_at (resume_consumer c whole_topic w) c MESSAGES q = false.
Proof.
  unfold paused_at, resume_consumer.
  cbn [kafka with_kafka update_consumer consumers].
  rewrite nth_error_update_nth.
  destruct (nth_error (consumers (kafka w)) c) as [o|]; cbn [option_map]; [|reflexivity].
  unfold is_paused.
  cbn [set_paused c_paused whole_topic fold_left resume_one tp_topic tp_partitions].
  unfold resume_one. cbn [tp_topic tp_partitions].
  destruct (mark_of MESSAGES (c_paused o)) as [m|] eqn:Hm.
  - rewrite mark_of_set_mark. reflexivity.
  - rewrite Hm. reflexivity.
Qed.

Lemma paused_at_resume_other (c c' : Handle) (w : World) (t : jsstring) (q : Z) :
  c <> c' ->
  paused_at (resume_consumer c' whole_topic w) c t q = paused_at w c t q.
Proof.
  intros Hne. unfold paused_at, resume_consumer.
  cbn [kafka with_kafka update_consumer consumers].
  rewrite nth_error_update_nth_other by auto. reflexivity.
Qed.

(** A resume pauses nothing. *)
Lemma paused_at_resume_mono (c c' : Handle) (w : World) (t : jsstring) (q : Z) :
  paused_at (resume_consumer c' whole_topic w) c t q = true ->
  paused_at w c t q = true.
Proof.
  destruct (Nat.eq_dec c c') as [<-|Hne].
  - unfold paused_at, resume_consumer.
    cbn [kafka with_kafka update_consumer consumers].
    rewrite nth_error_update_nth.
    destruct (nth_error (consumers (kafka w)) c) as [o|]; cbn [option_map]; [|auto].
    unfold is_paused.
    cbn [set_paused c_paused whole_topic fold_left resume_one tp_topic tp_partitions].
    unfold resume_one. cbn [tp_topic tp_partitions].
    destruct (mark_of MESSAGES (c_paused o)) as [m|] eqn:Hm; [|auto].
    destruct (str_eqb MESSAGES t) eqn:Ht.
    + apply str_eqb_eq in Ht. subst t. rewrite mark_of_set_mark. cbn. discriminate.
    + rewrite mark_of_set_mark_other by exact Ht. auto.
  - rewrite paused_at_resume_other by exact Hne. auto.
Qed.

Lemma fire_cons (d : Z) (c : Handle) (due : list (Z * Callback)) (w : World) :
  fire ((d, ResumeCallback c) :: due) w = fire due (resume_consumer c whole_topic w).
Proof.
  unfold fire. cbn [fold_left snd callback_prog].
  rewrite run_resume_callback. reflexivity.
Qed.

Lemma fire_mono (due : list (Z * Callback)) (w : World) (c : Handle)
  (t : jsstring) (q : Z) :
  paused_at (fire due w) c t q = true -> paused_at w c t q = true.
Proof.
  revert w. induction due as [|[d [c']] due IH]; intros w H.
  - exact H.
  - rewrite fire_cons in H. apply IH in H.
    apply paused_at_resume_mono in H. exact H.
Qed.

(** When the resume of a consumer is among the callbacks that run, the
    consumer is paused on no partition of the topic afterwards. *)
Lemma fire_resumes (due : list (Z * Callback)) (w : World) (c : Handle) (d : Z) (q : Z) :
  In (d, ResumeCallback c) due -> paused_at (fire due w) c MESSAGES q = false.
Proof.
  revert w. induction due as [|[d' [c']] due IH]; intros w Hin.
  - contradiction.
  - rewrite fire_cons. destruct Hin as [Heq|Hin].
    + injection Heq as _ ->.
      destruct (paused_at (fire due (resume_consumer c whole_topic w)) c MESSAGES q) eqn:Hp;
        [|reflexivity].
      apply fire_mono in Hp. rewrite paused_at_resume_same in Hp. discriminate.
    + apply IH. exact Hin.
Qed.

(** When it is not, the consumer is left as it is. *)
Lemma fire_others (due : list (Z * Callback)) (w : World) (c : Handle)
  (t : jsstring) (q : Z) :
  (forall x, In x due -> snd x <> ResumeCallback c) ->
  paused_at (fire due w) c t q = paused_at w c t q.
Proof.
  revert w. induction due as [|[d [c']] due IH]; intros w Hno.
  - reflexivity.
  - rewrite fire_cons. rewrite IH.
    + apply paused_at_resume_other. intros ->.
      apply (Hno (d, ResumeCallback c')); [left; reflexivity|reflexivity].
    + intros x Hx. apply Hno. right. exact Hx.
Qed.

Lemma tick_fire (ms : Z) (w : World) :
  tick ms w
  = fire (filter (fun x => (fst x <=? now (clock w) + ms)%Z) (timers (clock w)))
         (with_clock
            (mkClock (now (clock w) + ms)
               (filter (fun x => negb (fst x <=? now (clock w) + ms)%Z)
                       (timers (clock w)))) w).
Proof. reflexivity. Qed.

Lemma fire_clock (due : list (Z * Callback)) (w : World) :
  clock (fire due w) = clock w.
Proof. exact (proj1 (proj2 (fold_resume_frame due w))). Qed.

Lemma paused_at_same (w w' : World) (c : Handle) (t : jsstring) (q : Z) :
  consumers (kafka w') = consumers (kafka w) ->
  paused_at w' c t q = paused_at w c t q.
Proof. unfold paused_at. intros ->. reflexivity. Qed.

Lemma resume_pending_same (w w' : World) :
  consumers (kafka w') = consumers (kafka w) -> clock w' = clock w ->
  resume_pending w -> resume_pending w'.
Proof.
  intros Hk Hc Hw c t q Hp. rewrite (paused_at_same w w') in Hp by exact Hk.
  rewrite Hc. exact (Hw c t q Hp).
Qed.

(** What one delivery by the runner can be. *)
Lemma poll_cases (c : Handle) (t : jsstring) (p : Z) (w : World) :
  poll c t p w = w \/
  (exists g n, poll c t p w = commit g t p n w) \/
  (exists g n text, poll c t p w = commit g t p n (store_write text w)) \/
  (exists g n o,
     nth_error (consumers (kafka w)) c = Some o /\
     poll c t p w
     = commit g t p n
         (set_timeout (ResumeCallback c) 60000
            (pause_consumer c whole_topic (store_fail w)))).
Proof.
  unfold poll.
  destruct (nth_error (consumers (kafka w)) c) as [o|] eqn:Ho; [|auto].
  destruct (subscription t (c_subscribed o)) as [fb|]; [|auto].
  destruct (c_running o && negb (is_paused (c_paused o) t p)); [|auto].
  destruct (nth_error (partition_log t p (log (broker w))) _) as [r|]; [|auto].
  rewrite run_eachMessage. cbn [value message].
  destruct (br_value r) as [b|]; cbn [outcome final].
  - destruct (store_script (store w)) as [|[|] s]; cbn [outcome final].
    + right. right. left. eauto.
    + right. right. left. eauto.
    + right. right. right. eauto 10.
  - right. left. eauto.
Qed.

Lemma produce_clock (message : jsstring) (w : World) :
  clock (final (run (produceMessage message) w)) = clock w.
Proof.
  rewrite run_produceMessage, run_createProducer.
  destruct (producer (kafka w)); cbv zeta; destruct (kafka_up (env w)); reflexivity.
Qed.

Lemma resume_pending_poll (c : Handle) (t : jsstring) (p : Z) (w : World) :
  resume_pending w -> resume_pending (poll c t p w).
Proof.
  intros Hw.
  destruct (poll_cases c t p w) as [->|[(g & n & ->)|[(g & n & text & ->)|
                                    (g & n & o & Ho & ->)]]].
  - exact Hw.
  - apply (resume_pending_same w); [reflexivity|reflexivity|exact Hw].
  - apply (resume_pending_same w); [reflexivity|reflexivity|exact Hw].
  - destruct (pause_whole_topic w c o Ho) as (_ & Ht & Hc).
    cbv zeta in Ht, Hc.
    intros c0 t0 q Hp.
    rewrite (paused_at_same (pause_consumer c whole_topic w)) in Hp by reflexivity.
    cbn [clock commit with_broker set_timeout with_clock pause_consumer with_kafka
         store_fail with_store timers now].
    destruct (Nat.eq_dec c0 c) as [->|Hne].
    + destruct (str_eqb MESSAGES t0) eqn:Hm.
      * split; [reflexivity|]. exists (now (clock w) + 60000)%Z. split; [|lia].
        apply in_or_app. right. left. reflexivity.
      * rewrite Ht in Hp by exact Hm. destruct (Hw c t0 q Hp) as [Hm' _]. congruence.
    + rewrite Hc in Hp by exact Hne. destruct (Hw c0 t0 q Hp) as (Hm & d & Hin & Hd).
      split; [exact Hm|]. exists d. split; [|exact Hd].
      apply in_or_app. left. exact Hin.
Qed.

Lemma resume_pending_tick (ms : Z) (w : World) :
  (0 <= ms)%Z -> resume_pending w -> resume_pending (tick ms w).
Proof.
  intros Hms Hw c t q Hp. rewrite tick_fire in *.
  set (due := filter (fun x => (fst x <=? now (clock w) + ms)%Z) (timers (clock w))) in *.
  set (rest := filter (fun x => negb (fst x <=? now (clock w) + ms)%Z)
                      (timers (clock w))) in *.
  pose proof (fire_mono _ _ _ _ _ Hp) as Hp0.
  rewrite (paused_at_same w) in Hp0 by reflexivity.
  destruct (Hw c t q Hp0) as (Hm & d & Hin & Hd).
  split; [exact Hm|]. exists d. rewrite fire_clock. cbn [clock with_clock timers now].
  split; [|lia].
  subst rest. apply filter_In. split; [exact Hin|]. cbn [fst].
  destruct (d <=? now (clock w) + ms)%Z eqn:Hdue; [|reflexivity]. exfalso.
  assert (Hd' : In (d, ResumeCallback c) due).
  { subst due. apply filter_In. split; [exact Hin|exact Hdue]. }
  apply str_eqb_eq in Hm. subst t.
  rewrite (fire_resumes due _ c d q Hd') in Hp. discriminate.
Qed.

Lemma resume_pending_step (s : Step) (w : World) :
  forward s -> resume_pending w -> resume_pending (step s w).
Proof.
  destruct s as [c t p|ms|s|s event message|channel payload|message];
    cbn [step forward]; intros Hf Hw.
  - apply resume_pending_poll. exact Hw.
  - apply resume_pending_tick; assumption.
  - pose proof (client_connects_backend s w) as H. injection H as _ Hc Hk _ _.
    apply (resume_pending_same w); [rewrite Hk; reflexivity|exact Hc|exact Hw].
  - pose proof (client_emits_backend s event message w) as H. injection H as _ Hc Hk _ _.
    apply (resume_pending_same w); [rewrite Hk; reflexivity|exact Hc|exact Hw].
  - pose proof (redis_delivers_backend channel payload w) as H. injection H as _ Hc Hk _ _.
    apply (resume_pending_same w); [rewrite Hk; reflexivity|exact Hc|exact Hw].
  - apply (resume_pending_same w); [|apply produce_clock|exact Hw].
    exact (proj1 (proj2 (produce_facts message w))).
Qed.

Lemma resume_pending_steps (l : list Step) (w : World) :
  Forall forward l -> resume_pending w -> resume_pending (steps l w).
Proof.
  revert w. induction l as [|s l IH]; intros w Hf Hw.
  - exact Hw.
  - inversion Hf; subst. unfold steps. cbn [fold_left]. apply IH; [assumption|].
    apply resume_pending_step; assumption.
Qed.

(** X4: every pause ends within a minute.  Whatever the process has done
    since its start (deliveries with writes accepted or refused, client
    and Redis traffic, time passing), every consumer that is paused is
    paused on the topic "MESSAGES" with its resume pending, so that once
    a further minute has passed no consumer is paused on any partition. *)
Theorem pause_ends_within_a_minute (w : World) (l : list Step) :
  Forall forward l ->
  let w1 := steps l (boot (restart w)) in
  resume_pending w1 /\
  forall c t q, paused_at (tick 60000 w1) c t q = false.
Proof.
  intros Hf. cbv zeta.
  assert (Hinv : resume_pending (steps l (boot (restart w)))).
  { apply resume_pending_steps; [exact Hf|].
    intros c t q Hp.
    rewrite no_pause_running in Hp by (apply boot_restart). discriminate. }
  split; [exact Hinv|]. intros c t q.
  destruct (paused_at (tick 60000 (steps l (boot (restart w)))) c t q) eqn:Hp;
    [|reflexivity].
  exfalso. rewrite tick_fire in Hp.
  pose proof (fire_mono _ _ _ _ _ Hp) as Hp0.
  rewrite (paused_at_same (steps l (boot (restart w)))) in Hp0 by reflexivity.
  destruct (Hinv c t q Hp0) as (Hm & d & Hin & Hd).
  apply str_eqb_eq in Hm. subst t.
  rewrite (fire_resumes _ _ c d q) in Hp; [discriminate|].
  apply filter_In. split; [exact Hin|]. cbn [fst]. apply Z.leb_le. exact Hd.
Qed.

Lemma pause_ends_within_a_minute_witness :
  paused_at (steps [StepPoll 0 MESSAGES 0; StepTick 100]
                   (boot (restart failing_once))) 0 MESSAGES 1 = true /\
  forall c t q,
    paused_at (tick 60000 (steps [StepPoll 0 MESSAGES 0; StepTick 100]
                                 (boot (restart failing_once)))) c t q = false.
Proof.
  split; [reflexivity|].
  apply (pause_ends_within_a_minute failing_once [StepPoll 0 MESSAGES 0; StepTick 100]).
  repeat constructor. simpl. lia.
Defined.

(** X6: a refused write pauses the consumer for a minute and no longer.
    When [eachMessage] has caught the error of the store (and no earlier
    resume of that consumer is pending), then as long as less than 60000
    ms have passed the pause state of the consumer covers every
    partition of "MESSAGES"; once 60000 ms have passed it covers none. *)
Theorem refused_write_pauses_for_a_minute (w : World) (c : Handle) (o : ConsumerObj)
  (p : EachMessagePayload) (b : Buffer) (s : list bool) :
  nth_error (consumers (kafka w)) c = Some o ->
  value (message p) = Some b ->
  store_script (store w) = false :: s ->
  (forall x, In x (timers (clock w)) -> snd x <> ResumeCallback c) ->
  let w1 := final (run (eachMessage c p) w) in
  (forall ms q, (ms < 60000)%Z ->
     paused_at (tick ms w1) c (js "MESSAGES") q = true) /\
  (forall ms q, (60000 <= ms)%Z ->
     paused_at (tick ms w1) c (js "MESSAGES") q = false).
Proof.
  intros Ho Hv Hs Hno. cbv zeta. rewrite run_eachMessage, Hv, Hs. cbn [final].
  change (js "MESSAGES") with MESSAGES.
  destruct (pause_whole_topic (store_fail w) c o Ho) as (Hall & _ & _).
  cbv zeta in Hall.
  assert (Hearly : forall ms q, (ms < 60000)%Z ->
            paused_at (tick ms (set_timeout (ResumeCallback c) 60000
                                  (pause_consumer c whole_topic (store_fail w))))
                      c MESSAGES q = true).
  { intros ms q Hms. rewrite tick_fire. rewrite fire_others.
    - rewrite (paused_at_same (pause_consumer c whole_topic (store_fail w)))
        by reflexivity.
      apply Hall.
    - intros x Hx. apply filter_In in Hx. destruct Hx as [Hin Hdue].
      cbn [clock set_timeout with_clock pause_consumer with_kafka store_fail with_store
           timers now] in Hin, Hdue.
      apply in_app_or in Hin. destruct Hin as [Hin|[<-|[]]].
      + apply Hno. exact Hin.
      + cbn [fst] in Hdue. apply Z.leb_le in Hdue. lia. }
  split.
  - exact Hearly.
  - intros ms q Hms. rewrite tick_fire.
    apply (fire_resumes _ _ c (now (clock w) + 60000)%Z q).
    apply filter_In. split.
    + cbn [clock set_timeout with_clock pause_consumer with_kafka store_fail with_store
           timers now].
      apply in_or_app. right. left. reflexivity.
    + cbn [fst clock set_timeout with_clock pause_consumer with_kafka store_fail
           with_store timers now].
      apply Z.leb_le. lia.
Qed.

Lemma refused_write_pauses_for_a_minute_witness :
  let w1 := final (run (eachMessage 0 (mkPayload MESSAGES 0
                                         (mkKafkaMessage 0 (Some (mkBuffer (js "x"))))))
                       failing_once) in
  (forall ms q, (ms < 60000)%Z ->
     paused_at (tick ms w1) 0 (js "MESSAGES") q = true) /\
  (forall ms q, (60000 <= ms)%Z ->
     paused_at (tick ms w1) 0 (js "MESSAGES") q = false).
Proof.
  apply (refused_write_pauses_for_a_minute failing_once 0 the_consumer
           (mkPayload MESSAGES 0 (mkKafkaMessage 0 (Some (mkBuffer (js "x")))))
           (mkBuffer (js "x")) []); try reflexivity.
  intros x Hx. simpl in Hx. contradiction.
Defined.

(* ================================================================= *)
(** ** The start of the consumer *)

(** The world that index.ts leaves when Kafka is reachable. *)
Lemma boot_with_kafka (e : Env) (t : Z) (b : Broker) (s : Store) :
  kafka_up e = true ->
  let w0 := boot (process_start e t b s) in
  kafka w0 = mkKafkaModule None (Some 0) 0 [the_consumer] /\
  broker w0 = b /\ store w0 = s.
Proof.
  destruct e as [ru ku part]. cbn [kafka_up]. intros ->.
  destruct ru; cbn; repeat split; reflexivity.
Qed.

(** X7: started with Kafka reachable, the process has one consumer, of
    the group "message-consumer-group", subscribed to "MESSAGES" from the
    beginning and running; on each partition the first record the runner
    hands it is the one at the committed offset of the group, or the
    oldest record of the partition when the group has committed none, and
    its text is written to an accepting store. *)
Theorem started_consumer_reads_from_its_cursor (e : Env) (t : Z) (b : Broker)
  (s : Store) (p : Z) (r : BrokerRecord) :
  kafka_up e = true ->
  Forall (fun x => x = true) (store_script s) ->
  nth_error (partition_log (js "MESSAGES") p (log b))
            match cursor_get (js "message-consumer-group") (js "MESSAGES") p (cursor b) with
            | Some n => n
            | None => 0
            end = Some r ->
  let w0 := boot (process_start e t b s) in
  consumer (kafka w0) = Some 0 /\
  nth_error (consumers (kafka w0)) 0
  = Some (mkConsumerObj (js "message-consumer-group") [(js "MESSAGES", true)] true []) /\
  rows (store (poll 0 (js "MESSAGES") p w0)) = rows s ++ text_of r.
Proof.
  intros Hup Hacc Hr. cbv zeta.
  destruct (boot_with_kafka e t b s Hup) as (Hk & Hb & Hs). cbv zeta in Hk, Hb, Hs.
  set (w0 := boot (process_start e t b s)) in *.
  change (js "MESSAGES") with MESSAGES in *.
  change (js "message-consumer-group") with group in *.
  rewrite Hk. cbn [consumer consumers nth_error]. repeat split.
  assert (Ho : nth_error (consumers (kafka w0)) 0 = Some the_consumer)
    by (rewrite Hk; reflexivity).
  assert (Hacc0 : accepting w0) by (unfold accepting; rewrite Hs; exact Hacc).
  pose proof (poll_accepted w0 0 the_consumer MESSAGES p true Ho eq_refl eq_refl
                eq_refl Hacc0) as (_ & _ & _ & _ & _ & Hstep).
  cbv zeta in Hstep. unfold next_offset in Hstep.
  cbn [c_groupId the_consumer] in Hstep. rewrite Hb in Hstep.
  replace (match cursor_get group MESSAGES p (cursor b) with
           | Some n => n
           | None => 0
           end)
    with (match cursor_get group MESSAGES p (cursor b) with
          | Some n => n
          | None => if true then 0 else List.length (partition_log MESSAGES p (log b))
          end) in Hr by reflexivity.
  rewrite Hr in Hstep. destruct Hstep as [Hrows _]. rewrite Hrows, Hs. reflexivity.
Qed.

Lemma started_consumer_reads_from_its_cursor_witness :
  rows (store (poll 0 (js "MESSAGES") 1 three_records)) = [js "z"].
Proof.
  assert (Hacc : Forall (fun x => x = true) (store_script (mkStore [true] [] 0)))
    by (repeat constructor).
  exact (proj2 (proj2 (started_consumer_reads_from_its_cursor env_up 1700000000000
          (mkBroker [record_on 0 (js "x"); record_on 0 (js "y"); record_on 1 (js "z")] [])
          (mkStore [true] [] 0) 1 (record_on 1 (js "z")) eq_refl Hacc eq_refl))).
Defined.

Lemma none_running_poll (c : Handle) (t : jsstring) (p : Z) (w : World) :
  none_running w -> poll c t p w = w.
Proof.
  unfold none_running, poll. intros H.
  destruct (nth_error (consumers (kafka w)) c) as [o|] eqn:Ho; [|reflexivity].
  apply nth_error_In in Ho. rewrite Forall_forall in H. rewrite (H o Ho).
  destruct (subscription t (c_subscribed o)); reflexivity.
Qed.

Lemma none_running_resume (c : Handle) (w : World) :
  none_running w -> none_running (resume_consumer c whole_topic w).
Proof.
  unfold none_running, resume_consumer. cbn [kafka with_kafka update_consumer consumers].
  apply update_nth_Forall. intros o Ho. exact Ho.
Qed.

Lemma none_running_fire (due : list (Z * Callback)) (w : World) :
  none_running w -> none_running (fire due w).
Proof.
  revert w. induction due as [|[d [c]] due IH]; intros w H.
  - exact H.
  - rewrite fire_cons. apply IH. apply none_running_resume. exact H.
Qed.

(** With no consumer running, no step writes to the store or moves a
    cursor. *)
Lemma none_running_step (s : Step) (w : World) :
  none_running w ->
  none_running (step s w) /\ store (step s w) = store w /\
  cursor (broker (step s w)) = cursor (broker w).
Proof.
  intros H. destruct s as [c t p|ms|s|s event message|channel payload|message];
    cbn [step].
  - rewrite none_running_poll by exact H. auto.
  - rewrite tick_fire. repeat split.
    + apply none_running_fire. exact H.
    + exact (proj1 (fold_resume_facts _ _)).
    + pose proof (fold_resume_frame
                    (filter (fun x => (fst x <=? now (clock w) + ms)%Z) (timers (clock w)))
                    (with_clock
                       (mkClock (now (clock w) + ms)
                          (filter (fun x => negb (fst x <=? now (clock w) + ms)%Z)
                                  (timers (clock w)))) w)) as (_ & _ & Hb & _).
      cbv zeta in Hb. unfold fire. rewrite Hb. reflexivity.
  - pose proof (client_connects_backend s w) as E. injection E as _ _ Hk Hb Hs.
    unfold none_running. rewrite Hk, Hb, Hs. auto.
  - pose proof (client_emits_backend s event message w) as E. injection E as _ _ Hk Hb Hs.
    unfold none_running. rewrite Hk, Hb, Hs. auto.
  - pose proof (redis_delivers_backend channel payload w) as E. injection E as _ _ Hk Hb Hs.
    unfold none_running. rewrite Hk, Hb, Hs. auto.
  - pose proof (produce_facts message w) as (Hs & Hc & _). cbv zeta in Hs, Hc.
    unfold none_running. rewrite Hs, Hc. repeat split; auto.
    rewrite run_produceMessage, run_createProducer.
    destruct (producer (kafka w)); cbv zeta; destruct (kafka_up (env w)); reflexivity.
Qed.

(** X8: when Kafka is unreachable at the start of the process, [init]
    catches the error and logs it: the promise of [init] resolves, and
    with Redis reachable nothing is left unhandled and the instance
    serves its clients.  The consumer, however, is never started again:
    whatever the process does from then on, Kafka back or not, no record
    is written to the store and no offset is committed. *)
Theorem kafka_down_at_start (e : Env) (t : Z) (b : Broker) (s : Store) (l : list Step) :
  kafka_up e = false ->
  let r := run init (process_start e t b s) in
  let w0 := boot (process_start e t b s) in
  outcome r = Resolved tt /\
  In (Console Err [LStr (js "Failed to start Kafka consumer:"); LErr KafkaError])
     (trace r) /\
  (redis_up e = true -> unhandled w0 = [] /\ serving w0) /\
  store (steps l (kafka_returns w0)) = s /\
  cursor (broker (steps l (kafka_returns w0))) = cursor b.
Proof.
  intros Hdown. cbv zeta.
  assert (Hboot : none_running (kafka_returns (boot (process_start e t b s))) /\
                  store (kafka_returns (boot (process_start e t b s))) = s /\
                  cursor (broker (kafka_returns (boot (process_start e t b s)))) = cursor b).
  { destruct e as [ru ku part]. cbn [kafka_up] in Hdown. subst ku.
    destruct ru; cbn; repeat split; repeat constructor. }
  split; [|split; [|split]].
  - destruct e as [ru ku part]. cbn [kafka_up] in Hdown. subst ku.
    destruct ru; reflexivity.
  - destruct e as [ru ku part]. cbn [kafka_up] in Hdown. subst ku.
    destruct ru; cbn; auto 20.
  - intros Hredis. split; [|apply boot_serving; exact Hredis].
    destruct e as [ru ku part]. cbn [kafka_up] in Hdown. cbn [redis_up] in Hredis.
    subst ku ru. reflexivity.
  - destruct Hboot as (Hn & Hs & Hc).
    revert Hn Hs Hc. generalize (kafka_returns (boot (process_start e t b s))) as w.
    induction l as [|x l IH]; intros w Hn Hs Hc.
    + split; assumption.
    + unfold steps. cbn [fold_left]. fold (steps l (step x w)).
      destruct (none_running_step x w Hn) as (Hn' & Hs' & Hc').
      apply IH; [exact Hn'|rewrite Hs'; exact Hs|rewrite Hc'; exact Hc].
Qed.

Lemma kafka_down_at_start_witness :
  store (steps [StepPoll 0 MESSAGES 0; StepTick 60000; StepPoll 0 MESSAGES 0]
               (kafka_returns start_without_kafka)) = mkStore [] [] 0 /\
  cursor (broker (steps [StepPoll 0 MESSAGES 0; StepTick 60000; StepPoll 0 MESSAGES 0]
                        (kafka_returns start_without_kafka))) = [].
Proof.
  exact (proj2 (proj2 (proj2
    (kafka_down_at_start env_kafka_down 1700000000000
       (mkBroker [record_on 0 (js "x"); record_on 0 (js "y")] [])
       (mkStore [] [] 0)
       [StepPoll 0 MESSAGES 0; StepTick 60000; StepPoll 0 MESSAGES 0] eq_refl)))).
Defined.

(* ================================================================= *)
(** ** More on the socket service *)

(** X9: when Redis rejects the publish, the message of the client
    reaches nobody, the clients of the same instance included: nothing is
    published and nothing emitted, and the rejected promise of the
    handler is left unhandled. *)
Theorem redis_down_loses_message (w : World) (s : SocketId) (t : jsstring) :
  serving w ->
  In s (sockets (realtime w)) ->
  redis_up (env w) = false ->
  let w' := client_emits s (js "event:message") t w in
  published (realtime w') = published (realtime w) /\
  received (realtime w') = received (realtime w) /\
  unhandled w' = unhandled w ++ [RedisError].
Proof.
  intros Hw Hs Hdown. cbv zeta. rewrite client_emits_serving by assumption.
  rewrite run_on_event_message. cbv zeta. rewrite Hdown.
  repeat split; reflexivity.
Qed.

Lemma redis_down_loses_message_witness :
  let w' := client_emits 7 (js "event:message") (js "hello") (redis_fails two_clients) in
  published (realtime w') = [] /\
  received (realtime w') = [] /\
  unhandled w' = [RedisError].
Proof.
  apply (redis_down_loses_message (redis_fails two_clients) 7 (js "hello")).
  - reflexivity.
  - simpl. left. reflexivity.
  - reflexivity.
Defined.

(** One message through the cluster. *)
Lemma cluster_step (cl : list World) (i : nat) (w : World) (s : SocketId) (t : jsstring) :
  Forall serving cl ->
  nth_error cl i = Some w ->
  In s (sockets (realtime w)) ->
  redis_up (env w) = true ->
  wf_string t ->
  let cl' := cluster_client_emits i s t cl in
  Forall serving cl' /\
  forall j wj, nth_error cl j = Some wj ->
    exists wj', nth_error cl' j = Some wj' /\
                received (realtime wj')
                = received (realtime wj) ++ emitted [t] wj /\
                sockets (realtime wj') = sockets (realtime wj) /\
                env wj' = env wj.
Proof.
  intros Hall Hi Hs Hup Ht. cbv zeta.
  assert (Hw : serving w).
  { rewrite Forall_forall in Hall. apply Hall. eapply nth_error_In. exact Hi. }
  rewrite (cluster_client_emits_chat cl i w s t) by assumption.
  assert (Hall' : Forall serving
                    (update_nth i (fun _ => publish MESSAGES (stringify (chat t)) w) cl)).
  { apply update_nth_Forall; [|exact Hall]. intros _ _. apply serving_publish. exact Hw. }
  split.
  - apply Forall_map. eapply Forall_impl; [|exact Hall'].
    intros x Hx. cbv beta. rewrite redis_delivers_chat by assumption.
    apply serving_emit_all. exact Hx.
  - intros j wj Hj. rewrite nth_error_map. unfold emitted. cbn [flat_map].
    rewrite app_nil_r.
    destruct (Nat.eq_dec i j) as [<-|Hne].
    + rewrite nth_error_update_nth, Hi. cbn [option_map].
      eexists. split; [reflexivity|].
      rewrite redis_delivers_chat by (auto using serving_publish).
      assert (wj = w) by congruence. subst wj. repeat split; reflexivity.
    + rewrite nth_error_update_nth_other by exact Hne. rewrite Hj. cbn [option_map].
      eexists. split; [reflexivity|].
      rewrite redis_delivers_chat; [repeat split; reflexivity| |exact Ht].
      rewrite Forall_forall in Hall. apply Hall. eapply nth_error_In. exact Hj.
Qed.

(** X10: the bus keeps the order of a sender.  When a client of one
    instance of a cluster of serving instances sends the messages [ts]
    one after the other, every client of every instance is sent each of
    them once, in the order in which they were sent. *)
Theorem fan_out_keeps_order (ts : list jsstring) (cl : list World) (i : nat)
  (w : World) (s : SocketId) :
  Forall serving cl ->
  nth_error cl i = Some w ->
  In s (sockets (realtime w)) ->
  redis_up (env w) = true ->
  Forall wf_string ts ->
  forall j wj, nth_error cl j = Some wj ->
    exists wj', nth_error (cluster_chat i s ts cl) j = Some wj' /\
                received (realtime wj')
                = received (realtime wj)
                    ++ flat_map (fun t => map (fun s' => (s', js "message",
                                                         JObject [(js "message", JString t)]))
                                              (sockets (realtime wj))) ts.
Proof.
  revert cl w. induction ts as [|t ts IH]; intros cl w Hall Hi Hs Hup Hts j wj Hj.
  - exists wj. cbn. rewrite app_nil_r. auto.
  - inversion Hts as [|? ? Ht Hts']; subst.
    unfold cluster_chat. cbn [fold_left].
    fold (cluster_chat i s ts (cluster_client_emits i s t cl)).
    destruct (cluster_step cl i w s t Hall Hi Hs Hup Ht) as (Hall1 & Hstep).
    cbv zeta in Hall1, Hstep.
    destruct (Hstep i w Hi) as (w1 & Hi1 & _ & Hs1 & He1).
    destruct (Hstep j wj Hj) as (wj1 & Hj1 & Hr1 & Hsj1 & _).
    assert (Hin1 : In s (sockets (realtime w1))) by (rewrite Hs1; exact Hs).
    assert (Hup1 : redis_up (env w1) = true) by (rewrite He1; exact Hup).
    destruct (IH _ w1 Hall1 Hi1 Hin1 Hup1 Hts' j wj1 Hj1) as (wj' & Hj' & Hr').
    exists wj'. split; [exact Hj'|].
    rewrite Hr', Hr1, Hsj1. unfold emitted, chat. cbn [flat_map].
    rewrite app_nil_r, <- app_assoc. reflexivity.
Qed.

Lemma fan_out_keeps_order_witness :
  exists b, nth_error (cluster_chat 0 7 [js "a"; js "b"] [two_clients; one_client]) 1
            = Some b /\
            received (realtime b)
            = [ (3, js "message", JObject [(js "message", JString (js "a"))]);
                (3, js "message", JObject [(js "message", JString (js "b"))]) ].
Proof.
  assert (Hall : Forall serving [two_clients; one_client]).
  { repeat constructor; reflexivity. }
  assert (Hin : In 7 (sockets (realtime two_clients))).
  { simpl. left. reflexivity. }
  assert (Hwf : Forall wf_string [js "a"; js "b"]).
  { repeat constructor; unfold wf_unit; lia. }
  exact (fan_out_keeps_order [js "a"; js "b"] [two_clients; one_client] 0 two_clients 7
           Hall eq_refl Hin eq_refl Hwf 1 one_client eq_refl).
Defined.

Lemma client_connects_eq (s : SocketId) (w : World) :
  serving w ->
  client_connects s w
  = add_listener (SrcSocket s) (js "event:message") OnEventMessage (add_socket s w).
Proof.
  intros Hw. destruct (serving_elim _ Hw) as (_ & Hio & _ & _).
  unfold client_connects, dispatch.
  rewrite listeners_for_add_socket, Hio. cbn [fold_left listener_prog].
  rewrite run_on_connection. reflexivity.
Qed.

(** X11: a client that connects is sent no history.  Connecting emits
    nothing, to the new client or to anyone, so the new client has none
    of the messages delivered before; from then on it is sent every
    message that Redis delivers, after the clients already connected. *)
Theorem late_client_gets_no_history (w : World) (s : SocketId) (t : jsstring) :
  serving w ->
  mem_nat s (sockets (realtime w)) = false ->
  wf_string t ->
  let w1 := client_connects s w in
  let w2 := redis_delivers (js "MESSAGES")
              (stringify (JObject [(js "message", JString t)])) w1 in
  received (realtime w1) = received (realtime w) /\
  received (realtime w2)
  = received (realtime w)
      ++ map (fun s' => (s', js "message", JObject [(js "message", JString t)]))
             (sockets (realtime w) ++ [s]).
Proof.
  intros Hw Hnew Ht. cbv zeta.
  pose proof (client_connects_serving s w Hw Hnew) as Hw1.
  fold (chat t). change (js "MESSAGES") with MESSAGES.
  rewrite redis_delivers_chat by assumption.
  rewrite client_connects_eq by exact Hw. split; reflexivity.
Qed.

Lemma late_client_gets_no_history_witness :
  let w := redis_delivers (js "MESSAGES")
             (stringify (JObject [(js "message", JString (js "old"))])) one_client in
  let w1 := client_connects 4 w in
  let w2 := redis_delivers (js "MESSAGES")
              (stringify (JObject [(js "message", JString (js "new"))])) w1 in
  received (realtime w1)
  = [(3, js "message", JObject [(js "message", JString (js "old"))])] /\
  received (realtime w2)
  = [ (3, js "message", JObject [(js "message", JString (js "old"))]);
      (3, js "message", JObject [(js "message", JString (js "new"))]);
      (4, js "message", JObject [(js "message", JString (js "new"))]) ].
Proof.
  assert (Hwf : wf_string (js "new")).
  { repeat constructor; unfold wf_unit; lia. }
  exact (late_client_gets_no_history
           (redis_delivers (js "MESSAGES")
              (stringify (JObject [(js "message", JString (js "old"))])) one_client)
           4 (js "new") eq_refl eq_refl Hwf).
Defined.

(* ================================================================= *)
(** ** The web page *)

Lemma digits_dash_inj (u v : Decimal.uint) (e e' : jsstring) :
  uint_digits u ++ 45%N :: e = uint_digits v ++ 45%N :: e' -> u = v.
Proof.
  revert v. induction u; destruct v; cbn; intros H;
    try discriminate; try reflexivity; injection H as H; f_equal; eauto.
Qed.

Lemma number_to_string_nat (i : nat) :
  exists u, number_to_string (Z.of_nat i) = uint_digits u /\
            Z.to_int (Z.of_nat i) = Decimal.Pos u.
Proof.
  unfold number_to_string. destruct (Z.of_nat i) eqn:Hi.
  - exists (Decimal.D0 Decimal.Nil). split; reflexivity.
  - exists (Pos.to_uint p). split; reflexivity.
  - pose proof (Zle_0_nat i). lia.
Qed.

(** Keys of different indices differ, whatever the texts. *)
Lemma item_key_inj (i j : nat) (e e' : jsstring) :
  number_to_string (Z.of_nat i) ++ js "-" ++ e
  = number_to_string (Z.of_nat j) ++ js "-" ++ e' -> i = j.
Proof.
  destruct (number_to_string_nat i) as (u & Hu & Hi).
  destruct (number_to_string_nat j) as (v & Hv & Hj).
  rewrite Hu, Hv. cbn [js app]. intros H. apply digits_dash_inj in H. subst v.
  apply Nat2Z.inj. rewrite <- (DecimalZ.of_to (Z.of_nat i)), <- (DecimalZ.of_to (Z.of_nat j)).
  rewrite Hi, Hj. reflexivity.
Qed.

Lemma items_from_keys (k : nat) (messages : list jsstring) (key : jsstring) :
  In key (map li_key (items_from k messages)) ->
  exists j e, k <= j /\ key = number_to_string (Z.of_nat j) ++ js "-" ++ e.
Proof.
  revert k. induction messages as [|e r IH]; intros k H; cbn in H.
  - contradiction.
  - destruct H as [<-|H].
    + exists k, e. split; [lia|reflexivity].
    + destruct (IH (S k) H) as (j & e' & Hj & ->). exists j, e'. split; [lia|reflexivity].
Qed.

Lemma items_from_nodup (k : nat) (messages : list jsstring) :
  NoDup (map li_key (items_from k messages)).
Proof.
  revert k. induction messages as [|e r IH]; intros k; cbn [items_from map li_key].
  - constructor.
  - constructor; [|apply IH].
    intros Hin. destruct (items_from_keys (S k) r _ Hin) as (j & e' & Hj & Heq).
    apply item_key_inj in Heq. lia.
Qed.

Lemma items_from_texts (k : nat) (messages : list jsstring) :
  map li_text (items_from k messages) = messages.
Proof.
  revert k. induction messages as [|e r IH]; intros k; cbn; [|rewrite IH]; reflexivity.
Qed.

(** X12: the page lists the messages in their order, one item each with
    the text as it is, and no two items have the same key, even when the
    same text occurs more than once or a text looks like a key. *)
Theorem page_keys_are_unique (messages : list jsstring) :
  map li_text (Page_items messages) = messages /\
  NoDup (map li_key (Page_items messages)).
Proof.
  split; [apply items_from_texts|apply items_from_nodup].
Qed.

Lemma Page_run_app (a b : list UiEvent) (m : jsstring) :
  Page_run (a ++ b) m
  = (fst (Page_run b (fst (Page_run a m))),
     snd (Page_run a m) ++ snd (Page_run b (fst (Page_run a m)))).
Proof.
  revert m. induction a as [|ev a IH]; intros m.
  - cbn. destruct (Page_run b m); reflexivity.
  - cbn [app Page_run]. destruct (Page_on m ev) as [m1 s1]. rewrite IH.
    destruct (Page_run a m1) as [m2 s2]. cbn [fst snd].
    rewrite app_assoc. reflexivity.
Qed.

Lemma Page_run_clicks (k : nat) (m : jsstring) :
  Page_run (repeat Click k) m = (m, repeat m k).
Proof.
  induction k as [|k IH]; cbn [repeat Page_run Page_on]; [reflexivity|].
  rewrite IH. reflexivity.
Qed.

(** X13: Send sends the text that was typed last, once per click: the
    state is not cleared by a send, so [k] clicks after typing [v] call
    [sendMessage(v)] [k] times, and clicks before anything is typed send
    the empty text; no text is held back, the empty one included. *)
Theorem page_sends_what_was_typed (pre : list UiEvent) (v : jsstring) (k : nat) :
  Page_session (pre ++ Change v :: repeat Click k)
  = (v, snd (Page_session pre) ++ repeat v k) /\
  Page_session (repeat Click k) = (js "", repeat (js "") k).
Proof.
  unfold Page_session. split.
  - rewrite Page_run_app. cbn [Page_run Page_on]. rewrite Page_run_clicks.
    reflexivity.
  - apply Page_run_clicks.
Qed.

(* ================================================================= *)
(** ** The static accessors *)

Lemma run_initListeners (w : World) :
  run initListeners w
  = mkResult [ Console Log [LStr (js "Init Socket Listeners...")];
               IoOn (js "connection") OnConnection;
               SubOn (js "message") OnRedisMessage ]
      (add_listener SrcSub (js "message") OnRedisMessage
         (add_listener SrcIo (js "connection") OnConnection w))
      (Resolved tt).
Proof. unfold initListeners. run_open. run_close. Qed.

Lemma run_SocketService_constructor (w : World) :
  redis_up (env w) = true ->
  run SocketService_constructor w
  = mkResult [ Console Log [LStr (js "Init Socket Service...")];
               RedisSubscribe MESSAGES ]
      (subscribe MESSAGES w) (Resolved tt).
Proof.
  intros Hup. unfold SocketService_constructor. run_open. unfold settle_call.
  rewrite Hup. run_open. run_close.
Qed.

(** The accesses after the first: nothing is constructed, and every
    [initListeners] registers once more. *)
Lemma accesses_made (l : list Access) (w : World) :
  let w' := final (run (accesses l true) w) in
  env w' = env w /\
  subscribed (realtime w') = subscribed (realtime w) /\
  sockets (realtime w') = sockets (realtime w) /\
  received (realtime w') = received (realtime w) /\
  listeners_for SrcSub (js "message") w'
  = listeners_for SrcSub (js "message") w ++ repeat OnRedisMessage (count_init l).
Proof.
  revert w. induction l as [|[|] l IH]; intros w; cbv zeta.
  - cbn. rewrite app_nil_r. auto.
  - cbn [accesses access SocketService_instance bind count_init]. apply IH.
  - cbn [accesses access SocketService_instance bind count_init].
    rewrite run_bind, run_initListeners. cbn [outcome final trace].
    destruct (IH (add_listener SrcSub (js "message") OnRedisMessage
                    (add_listener SrcIo (js "connection") OnConnection w)))
      as (H1 & H2 & H3 & H4 & H5).
    cbv zeta in H1, H2, H3, H4, H5. rewrite H1, H2, H3, H4, H5.
    rewrite !listeners_for_add. cbn [source_eqb andb app]. rewrite app_nil_r.
    replace (str_eqb (js "message") (js "message")) with true by reflexivity.
    cbn [repeat]. rewrite <- app_assoc. repeat split; reflexivity.
Qed.

(** A payload that Redis delivers runs every registered callback. *)
Lemma deliver_to_stack (k : nat) (payload : jsstring) (data : JSON.value) (w : World) :
  JSON.parse payload = Some data ->
  received (realtime
    (fold_left (fun w l => settle (run (listener_prog l (ArgBus MESSAGES payload)) w))
               (repeat OnRedisMessage k) w))
  = received (realtime w)
      ++ List.concat (repeat (map (fun s => (s, js "message", data)) (sockets (realtime w))) k).
Proof.
  intros Hp. revert w. induction k as [|k IH]; intros w.
  - cbn. rewrite app_nil_r. reflexivity.
  - cbn [repeat fold_left listener_prog List.concat].
    rewrite run_on_redis_message, Hp.
    replace (str_eqb MESSAGES MESSAGES) with true by reflexivity.
    cbn [settle outcome final]. rewrite IH.
    cbn [emit_all realtime with_realtime received sockets].
    rewrite <- app_assoc. reflexivity.
Qed.

(** X14: the static accessors construct the service once, but listeners
    are registered at every call of [initListeners].  However many times
    [SocketService.io] and [SocketService.initListeners()] are used, the
    [sub] connection subscribes to "MESSAGES" once; and a payload that
    Redis then delivers is emitted to every client as many times as
    [initListeners] was called. *)
Theorem accessors_construct_once (l : list Access) (w : World)
  (payload : jsstring) (data : JSON.value) :
  redis_up (env w) = true ->
  subscribed (realtime w) = [] ->
  listeners_for SrcSub (js "message") w = [] ->
  JSON.parse payload = Some data ->
  l <> [] ->
  let w' := final (run (accesses l false) w) in
  subscribed (realtime w') = [js "MESSAGES"] /\
  received (realtime (redis_delivers (js "MESSAGES") payload w'))
  = received (realtime w)
      ++ List.concat (repeat (map (fun s => (s, js "message", data)) (sockets (realtime w)))
                        (count_init l)).
Proof.
  intros Hup Hsub Hl Hp Hne. cbv zeta. change (js "MESSAGES") with MESSAGES.
  assert (Hfirst : forall w1,
            env w1 = env w ->
            subscribed (realtime w1) = [MESSAGES] ->
            sockets (realtime w1) = sockets (realtime w) ->
            received (realtime w1) = received (realtime w) ->
            forall k,
              listeners_for SrcSub (js "message") w1 = repeat OnRedisMessage k ->
              subscribed (realtime w1) = [MESSAGES] /\
              received (realtime (redis_delivers MESSAGES payload w1))
              = received (realtime w)
                  ++ List.concat (repeat (map (fun s => (s, js "message", data))
                                         (sockets (realtime w))) k)).
  { intros w1 _ Hs1 Hk1 Hr1 k Hl1. split; [exact Hs1|].
    unfold redis_delivers, dispatch. rewrite Hs1, Hl1.
    replace (mem_str MESSAGES [MESSAGES]) with true by reflexivity.
    rewrite (deliver_to_stack k payload data w1 Hp), Hk1, Hr1. reflexivity. }
  destruct l as [|a l]; [contradiction|].
  cbn [accesses access SocketService_instance].
  destruct a.
  - rewrite run_bind, run_SocketService_constructor by exact Hup.
    cbn [outcome final trace].
    destruct (accesses_made l (subscribe MESSAGES w)) as (H1 & H2 & H3 & H4 & H5).
    cbv zeta in H1, H2, H3, H4, H5.
    apply Hfirst; try assumption.
    + cbn [subscribe realtime with_realtime subscribed] in H2. rewrite H2, Hsub. reflexivity.
    + rewrite H5. cbn [count_init].
      replace (listeners_for SrcSub (js "message") (subscribe MESSAGES w))
        with (listeners_for SrcSub (js "message") w) by reflexivity.
      rewrite Hl. reflexivity.
  - rewrite run_bind, run_bind, run_SocketService_constructor by exact Hup.
    cbn [outcome final trace]. rewrite run_initListeners. cbn [outcome final trace].
    destruct (accesses_made l
                (add_listener SrcSub (js "message") OnRedisMessage
                   (add_listener SrcIo (js "connection") OnConnection
                      (subscribe MESSAGES w)))) as (H1 & H2 & H3 & H4 & H5).
    cbv zeta in H1, H2, H3, H4, H5.
    apply Hfirst; try assumption.
    + cbn [subscribe add_listener realtime with_realtime subscribed] in H2.
      rewrite H2, Hsub. reflexivity.
    + rewrite H5. rewrite !listeners_for_add. cbn [source_eqb andb app].
      replace (str_eqb (js "message") (js "message")) with true by reflexivity.
      replace (listeners_for SrcSub (js "message") (subscribe MESSAGES w))
        with (listeners_for SrcSub (js "message") w) by reflexivity.
      rewrite Hl. cbn [count_init repeat app]. reflexivity.
Qed.

Lemma accessors_construct_once_witness :
  let w' := final (run (accesses [UseIo; UseInitListeners; UseInitListeners] false)
                       started_with_client) in
  subscribed (realtime w') = [js "MESSAGES"] /\
  received (realtime (redis_delivers (js "MESSAGES") (js "7") w'))
  = [(5, js "message", JNumber (js "7")); (5, js "message", JNumber (js "7"))].
Proof.
  apply (accessors_construct_once [UseIo; UseInitListeners; UseInitListeners]
           started_with_client (js "7") (JNumber (js "7")));
    try reflexivity.
  discriminate.
Defined.

(* ================================================================= *)
(** ** The callback of the consumer, in every case *)

(** X15: no error leaves [eachMessage].  Whatever the record and
    whatever the store answers, the promise of the callback resolves and
    nothing is left unhandled; it makes at most one store write; and it
    pauses the consumer exactly when that write was refused, setting one
    timer for each pause. *)
Theorem eachMessage_contains_errors (w : World) (c : Handle) (p : EachMessagePayload) :
  let r := run (eachMessage c p) w in
  outcome r = Resolved tt /\
  unhandled (final r) = unhandled w /\
  List.length (filter is_store_write (trace r)) <= 1 /\
  (filter is_pause (trace r) = [] <->
   store_failures (store (final r)) = store_failures (store w)) /\
  List.length (timers (clock (final r)))
  = List.length (timers (clock w)) + List.length (filter is_pause (trace r)).
Proof.
  cbv zeta. rewrite run_eachMessage.
  destruct (value (message p)) as [b|].
  - destruct (store_script (store w)) as [|[|] s]; cbn; rewrite ?length_app; cbn;
      repeat split; auto; try lia; try discriminate;
      intros H; exfalso; lia.
  - cbn. repeat split; auto; lia.
Qed.

(* ================================================================= *)
(** ** From the producer to the store *)

Lemma partition_log_app_last (t : jsstring) (p : Z) (l : list BrokerRecord)
  (k : jsstring) (v : option Buffer) :
  nth_error (partition_log t p (l ++ [mkBrokerRecord t p k v]))
            (List.length (partition_log t p l))
  = Some (mkBrokerRecord t p k v).
Proof.
  unfold partition_log. rewrite filter_app. cbn [filter br_topic br_partition].
  rewrite str_eqb_refl, Z.eqb_refl. cbn [andb].
  rewrite nth_error_app2 by apply Nat.le_refl.
  rewrite Nat.sub_diag. reflexivity.
Qed.

(** X16: what is produced is what is stored.  When the consumer of the
    topic has caught up with the partition that the key of a new message
    maps to and the store accepts, a message of well-formed UTF-16 given
    to [produceMessage] is, at the next delivery on that partition,
    written to the store as the text it was, after the rows already
    there. *)
Theorem produced_message_is_stored (w : World) (c : Handle) (o : ConsumerObj)
  (m : jsstring) :
  let p := partitioner (env w) (js "message-" ++ number_to_string (now (clock w))) in
  sendable m ->
  kafka_up (env w) = true ->
  nth_error (consumers (kafka w)) c = Some o ->
  subscription (js "MESSAGES") (c_subscribed o) = Some true ->
  c_running o = true ->
  is_paused (c_paused o) (js "MESSAGES") p = false ->
  Forall (fun x => x = true) (store_script (store w)) ->
  next_offset w (c_groupId o) (js "MESSAGES") p true
  = List.length (partition_log (js "MESSAGES") p (log (broker w))) ->
  rows (store (poll c (js "MESSAGES") p (final (run (produceMessage m) w))))
  = rows (store w) ++ [m].
Proof.
  cbv zeta. change (js "MESSAGES") with MESSAGES.
  intros _ Hup Ho Hsub Hrun Hp Hacc Hcaught.
  pose proof (produce_step m w Hup) as (_ & _ & Hlog & _).
  pose proof (produce_facts m w) as (Hs & Hc & _).
  cbv zeta in Hlog, Hs, Hc.
  assert (Hcur : cursor (broker (final (run (produceMessage m) w))) = cursor (broker w)).
  { rewrite run_produceMessage, run_createProducer.
    destruct (producer (kafka w)); cbv zeta; rewrite Hup; reflexivity. }
  set (w1 := final (run (produceMessage m) w)) in *.
  assert (Ho1 : nth_error (consumers (kafka w1)) c = Some o) by (rewrite Hc; exact Ho).
  assert (Hacc1 : accepting w1) by (unfold accepting; rewrite Hs; exact Hacc).
  pose proof (poll_accepted w1 c o MESSAGES _ true Ho1 Hsub Hrun Hp Hacc1)
    as (_ & _ & _ & _ & _ & Hstep).
  cbv zeta in Hstep.
  assert (Hn : next_offset w1 (c_groupId o) MESSAGES
                 (partitioner (env w) (js "message-" ++ number_to_string (now (clock w))))
                 true
               = List.length (partition_log MESSAGES
                   (partitioner (env w) (js "message-" ++ number_to_string (now (clock w))))
                   (log (broker w)))).
  { rewrite <- Hcaught. unfold next_offset. rewrite Hcur. reflexivity. }
  rewrite Hn, Hlog, partition_log_app_last in Hstep.
  destruct Hstep as [Hrows _]. rewrite Hrows, Hs. reflexivity.
Qed.

Lemma produced_message_is_stored_witness :
  rows (store (poll 0 (js "MESSAGES") 0
                 (final (run (produceMessage (js "hello")) (boot fresh)))))
  = [js "hello"].
Proof.
  assert (Hacc : Forall (fun x => x = true) (store_script (store (boot fresh))))
    by constructor.
  assert (Hm : sendable (js "hello")).
  { split; [repeat constructor; unfold wf_unit; lia|reflexivity]. }
  exact (produced_message_is_stored (boot fresh) 0 the_consumer (js "hello")
           Hm eq_refl eq_refl eq_refl eq_refl eq_refl Hacc eq_refl).
Defined.
